(** * The editor / language-server bridge of [src/components/code-editor.tsx]

    A shallow embedding of the parts of the [CodeEditor] component that talk
    to the language-server store: the diagnostics projector
    ([mapLspDiagnosticsToCM], [lspLinter]), the completion provider
    ([lspCompletion]), the hover handler ([createLspHover]), the navigation
    listener ([handleNavigation]), the change listener ([handleChange]), the
    project-root fallback ([getProjectRoot]) and the grammar selection
    ([getLanguageExtension]).

    JavaScript numbers that hold offsets, line numbers and revisions are
    integers here ([Z]); the arithmetic the component performs on them
    ([+ 1], [-], [Math.min], [Math.max]) is exact on integers below 2^53.
    JavaScript strings are lists of code units, of which the model has
    those below 256 ([list ascii]).  Calls that
    can throw return a [result]; asynchronous calls are split in the part
    that runs when the request is issued and the callback that runs when the
    promise resolves. *)

From Stdlib Require Import ZArith QArith List Sorted String Ascii Bool Lia.
Import ListNotations.
Open Scope Z_scope.

(** ** Exceptions *)

Inductive JsError : Type :=
| RangeError.

Inductive result (A : Type) : Type :=
| Ok (a : A)
| Throw (e : JsError).
Arguments Ok {A} a.
Arguments Throw {A} e.

Definition bind {A B : Type} (r : result A) (k : A -> result B) : result B :=
  match r with
  | Ok a => k a
  | Throw e => Throw e
  end.

Notation "'let*' x ':=' r 'in' k" := (bind r (fun x => k))
  (at level 10, x name, r at level 100, k at level 200).

(** ** JavaScript strings *)

Module JS.

Definition jsstring : Type := list ascii.

(** A string literal of the source. *)
Definition js (s : string) : jsstring := list_ascii_of_string s.

Definition length (s : jsstring) : Z := Z.of_nat (List.length s).

(** [a === b] on strings. *)
Fixpoint eqb (a b : jsstring) : bool :=
  match a, b with
  | [], [] => true
  | x :: a', y :: b' => Ascii.eqb x y && eqb a' b'
  | _, _ => false
  end.

(** Truthiness of a value of type [string | null | undefined]: [!v] holds
    for [null], [undefined] and the empty string. *)
Definition truthy (v : option jsstring) : bool :=
  match v with
  | None => false
  | Some [] => false
  | Some (_ :: _) => true
  end.

(** [s.substring(a, b)]: both indices are clamped to [0 .. s.length] and
    swapped when [a > b]. *)
Definition clampIndex (len i : Z) : Z := Z.max 0 (Z.min i len).

Definition substring (s : jsstring) (a b : Z) : jsstring :=
  let a' := clampIndex (length s) a in
  let b' := clampIndex (length s) b in
  let lo := Z.min a' b' in
  let hi := Z.max a' b' in
  firstn (Z.to_nat (hi - lo)) (skipn (Z.to_nat lo) s).

(** [s.slice(a, b)]: a negative index counts from the end; the result is
    empty when the start is not before the end. *)
Definition sliceIndex (len i : Z) : Z :=
  if i <? 0 then Z.max (len + i) 0 else Z.min i len.

Definition slice (s : jsstring) (a b : Z) : jsstring :=
  let a' := sliceIndex (length s) a in
  let b' := sliceIndex (length s) b in
  firstn (Z.to_nat (b' - a')) (skipn (Z.to_nat a') s).

(** [s.lastIndexOf(c)] for a search string [c] of one code unit: the
    index of the last occurrence, [-1] when there is none.  [i] is the
    index of the head of [s], [acc] the last occurrence seen so far. *)
Fixpoint lastIndexOfFrom (c : ascii) (s : jsstring) (i acc : Z) : Z :=
  match s with
  | [] => acc
  | x :: s' => lastIndexOfFrom c s' (i + 1) (if Ascii.eqb x c then i else acc)
  end.

Definition lastIndexOf (s : jsstring) (c : ascii) : Z :=
  lastIndexOfFrom c s 0 (-1).

(** [s.toLowerCase()].  Of the code units the model has (those below
    256) the upper-case letters are [A] to [Z] (65 to 90) and the Latin-1
    letters 192 to 214 and 216 to 222; each has its lower-case letter 32
    above it.  Every other code unit below 256 is left as it is. *)
Definition isUpperCase (c : ascii) : bool :=
  let n := nat_of_ascii c in
  ((65 <=? n) && (n <=? 90) || (192 <=? n) && (n <=? 214)
   || (216 <=? n) && (n <=? 222))%nat.

Definition lowerChar (c : ascii) : ascii :=
  if isUpperCase c then ascii_of_nat (nat_of_ascii c + 32) else c.

Definition toLowerCase (s : jsstring) : jsstring := map lowerChar s.

End JS.

Import JS.

(** ** CodeMirror documents

    The [Text] of [@codemirror/state]: a non-empty sequence of lines, none
    of which holds a line break.  Offsets count one position for each line
    break. *)

Module CM.

Record Text : Type := mkText {
  first_line : jsstring;
  more_lines : list jsstring
}.

Definition text_lines (d : Text) : list jsstring :=
  first_line d :: more_lines d.

(** [doc.lines] *)
Definition lines (d : Text) : Z := Z.of_nat (List.length (text_lines d)).

(** Length of a sequence of lines joined by line breaks, plus one. *)
Fixpoint joinedLength1 (ls : list jsstring) : Z :=
  match ls with
  | [] => 0
  | l :: rest => JS.length l + 1 + joinedLength1 rest
  end.

(** [doc.length] *)
Definition length (d : Text) : Z := joinedLength1 (text_lines d) - 1.

Record Line : Type := mkLine {
  from : Z;
  to : Z;
  number : Z;
  text : jsstring
}.

(** [line.length] *)
Definition line_length (l : Line) : Z := to l - from l.

(** [TextLeaf.lineInner(target, isLine, line, offset)]: walk the lines
    until the line number (when [isLine]) or the end offset of the line
    reaches [target]. *)
Fixpoint lineInner (ls : list jsstring) (target : Z) (isLine : bool)
         (line offset : Z) : option Line :=
  match ls with
  | [] => None
  | s :: rest =>
      let stop := offset + JS.length s in
      if (if isLine then line else stop) >=? target
      then Some (mkLine offset stop line s)
      else lineInner rest target isLine (line + 1) (stop + 1)
  end.

Definition orRangeError {A : Type} (o : option A) : result A :=
  match o with
  | Some a => Ok a
  | None => Throw RangeError
  end.

(** [doc.line(n)]: throws a [RangeError] unless [1 <= n <= doc.lines]. *)
Definition line (d : Text) (n : Z) : result Line :=
  if (n <? 1) || (n >? lines d) then Throw RangeError
  else orRangeError (lineInner (text_lines d) n true 1 0).

(** [doc.lineAt(pos)]: throws a [RangeError] unless
    [0 <= pos <= doc.length]. *)
Definition lineAt (d : Text) (pos : Z) : result Line :=
  if (pos <? 0) || (pos >? length d) then Throw RangeError
  else orRangeError (lineInner (text_lines d) pos false 1 0).

(** [Text.of(text.split(/\r\n?|\n/))], the document an editor state is
    created with from a string. *)
Definition CR : ascii := ascii_of_nat 13.
Definition LF : ascii := ascii_of_nat 10.

Fixpoint splitLines (s : jsstring) (cur : jsstring) : list jsstring :=
  match s with
  | [] => [rev cur]
  | c :: s' =>
      if Ascii.eqb c LF then rev cur :: splitLines s' []
      else if Ascii.eqb c CR then
        match s' with
        | c' :: s'' =>
            if Ascii.eqb c' LF then rev cur :: splitLines s'' []
            else rev cur :: splitLines s' []
        | [] => rev cur :: splitLines s' []
        end
      else splitLines s' (c :: cur)
  end.

Definition ofString (s : jsstring) : Text :=
  match splitLines s [] with
  | [] => mkText [] []
  | l :: rest => mkText l rest
  end.

End CM.

(** ** The language-server store ([@/lib/lsp-store])

    Only the shapes the component reads are modelled: the fields of the
    items as the component accesses them, and the two fields of the store
    state it destructures.  [getCompletions] and [getHoverInfo] are
    asynchronous methods of the store; the value their promise resolves
    with is an argument of the callback that consumes it. *)

Module Lsp.

Record Position : Type := mkPosition {
  line : Z;
  character : Z
}.

Record Range : Type := mkRange {
  start : Position;
  end_ : Position
}.

Record DiagnosticItem : Type := mkDiagnosticItem {
  range : Range;
  severity : jsstring;
  message : jsstring
}.

Record CompletionItem : Type := mkCompletionItem {
  label : jsstring;
  kind : jsstring;
  detail : option jsstring;
  documentation : option jsstring
}.

(** [useLspStore.getState()] *)
Record State : Type := mkState {
  currentFilePath : option jsstring;
  diagnostics : list DiagnosticItem
}.

End Lsp.

(** [a !== b] on values of type [string | null]. *)
Definition strictNeq (a b : option jsstring) : bool :=
  match a, b with
  | None, None => false
  | Some x, Some y => negb (JS.eqb x y)
  | _, _ => true
  end.

(** ** The editing surface *)

(** Screen rectangles of [coordsAtPos], in pixels. *)
Module Rect.

Record t : Type := mk {
  top : Q;
  left : Q;
  bottom : Q;
  right : Q
}.

End Rect.

(** An [EditorView]: its document, the head of the main selection and the
    layout, which gives the screen rectangle of an offset or [null] when the
    offset is not rendered. *)
Record EditorView : Type := mkEditorView {
  doc : CM.Text;
  head : Z;
  coordsAtPos : Z -> option Rect.t
}.

(** ** Diagnostics *)

Module Lint.

Inductive Severity : Type :=
| hint
| info
| warning
| error.

(** A diagnostic of [@codemirror/lint]. *)
Record Diagnostic : Type := mkDiagnostic {
  from : Z;
  to : Z;
  severity : Severity;
  message : jsstring
}.

End Lint.

(** The conditional on [diag.severity] inside [mapLspDiagnosticsToCM]. *)
Definition mapSeverity (s : jsstring) : Lint.Severity :=
  if JS.eqb s (js "error") then Lint.error
  else if JS.eqb s (js "warning") then Lint.warning
  else Lint.info.

Definition mapLspDiagnosticsToCM (diagnostics : list Lsp.DiagnosticItem)
  : list Lint.Diagnostic :=
  map (fun diag =>
         Lint.mkDiagnostic
           (Lsp.character (Lsp.start (Lsp.range diag)))
           (Lsp.character (Lsp.end_ (Lsp.range diag)))
           (mapSeverity (Lsp.severity diag))
           (Lsp.message diag))
      diagnostics.

Definition getCursorPosition (view : EditorView) : result Lsp.Position :=
  let pos := head view in
  let* line := CM.lineAt (doc view) pos in
  Ok (Lsp.mkPosition (CM.number line - 1) (pos - CM.from line)).

(** The source of [linter(view => ...)].  [store] is what
    [useLspStore.getState()] returns when the linter runs; both reads of the
    source see the same state. *)
Definition lspLinter (store : Lsp.State) (view : EditorView)
  : list Lint.Diagnostic :=
  let diagnostics := Lsp.diagnostics store in
  let currentFilePath := Lsp.currentFilePath store in
  let filePath := Lsp.currentFilePath store in
  if negb (truthy filePath) || strictNeq filePath currentFilePath then []
  else mapLspDiagnosticsToCM diagnostics.

(** ** Completion *)

Module Autocomplete.

(** [CompletionContext]: the editor state the completion was started in
    and the offset it was started at.  The state is immutable, so the
    callback that runs when the server answers still reads the document
    of the time of the request. *)
Record CompletionContext : Type := mkContext {
  state_doc : CM.Text;
  pos : Z
}.

Record Match : Type := mkMatch {
  match_from : Z;
  match_to : Z;
  match_text : jsstring
}.

(** [context.matchBefore(expr)].  [search] stands for
    [str.search(ensureAnchor(expr, false))], the index of the leftmost
    match of the expression anchored at the end of [str], or [-1].  At
    most the 250 code units before [pos] are looked at, and the match is
    reported in document offsets. *)
Definition matchBefore (context : CompletionContext)
           (search : jsstring -> Z) : result (option Match) :=
  let* line := CM.lineAt (state_doc context) (pos context) in
  let start := Z.max (CM.from line) (pos context - 250) in
  let str := JS.slice (CM.text line) (start - CM.from line)
                      (pos context - CM.from line) in
  let found := search str in
  Ok (if found <? 0 then None
      else Some (mkMatch (start + found) (pos context)
                         (JS.slice str found (JS.length str)))).

(** An option of the completion list. *)
Record Completion : Type := mkCompletion {
  label : jsstring;
  type : jsstring;
  detail : option jsstring;
  info : option jsstring;
  apply : jsstring
}.

Record CompletionResult : Type := mkResult {
  from : Z;
  options : list Completion
}.

End Autocomplete.

(** The character class of the expression handed to [matchBefore]: word
    characters ([A-Z], [a-z], [0-9], [_]), hyphen and dot. *)
Definition isWordChar (c : ascii) : bool :=
  let n := nat_of_ascii c in
  ((48 <=? n) && (n <=? 57) || (65 <=? n) && (n <=? 90)
   || (97 <=? n) && (n <=? 122) || (n =? 95))%nat.

Definition identClass (c : ascii) : bool :=
  isWordChar c || Ascii.eqb c "-"%char || Ascii.eqb c "."%char.

(** [str.search] for the expression of the source (any number of code
    units of the class) anchored at the end of [str]: the leftmost index
    from which the expression matches, which is the leftmost index from
    which every code unit up to the end of [str] is in the class.  The empty match at the
    end of [str] always exists, so the search never answers [-1]. *)
Fixpoint searchIdent (str : jsstring) : Z :=
  if forallb identClass str then 0
  else match str with
       | [] => 0
       | _ :: str' => 1 + searchIdent str'
       end.

Definition toCompletion (item : Lsp.CompletionItem) : Autocomplete.Completion :=
  Autocomplete.mkCompletion
    (Lsp.label item)
    (toLowerCase (Lsp.kind item))
    (Lsp.detail item)
    (Lsp.documentation item)
    (Lsp.label item).

(** What a completion source returns: [null], or the promise of
    [getCompletions(filePath, lspPosition).then(callback)].  The callback
    receives the store as it is when the promise resolves, and the
    completions the promise resolves with. *)
Inductive CompletionSource : Type :=
| NoCompletions
| Requested (filePath : jsstring) (lspPosition : Lsp.Position)
            (callback : Lsp.State -> list Lsp.CompletionItem ->
                        result Autocomplete.CompletionResult).

Definition lspCompletion (store : Lsp.State)
           (context : Autocomplete.CompletionContext)
  : result CompletionSource :=
  let pos := Autocomplete.pos context in
  let* line := CM.lineAt (Autocomplete.state_doc context) pos in
  let lineStart := CM.from line in
  let lineEnd := CM.to line in
  let cursorPos := pos - lineStart in
  let currentFilePath := Lsp.currentFilePath store in
  let filePath := Lsp.currentFilePath store in
  if negb (truthy filePath) || strictNeq filePath currentFilePath
  then Ok NoCompletions
  else
    match filePath with
    | None => Ok NoCompletions
    | Some filePath =>
        let lspPosition := Lsp.mkPosition (CM.number line - 1) cursorPos in
        Ok (Requested filePath lspPosition
              (fun _storeOnArrival completions =>
                 let cmCompletions := map toCompletion completions in
                 let* match_ := Autocomplete.matchBefore context searchIdent in
                 let from :=
                   match match_ with
                   | Some m => lineStart + Autocomplete.match_from m
                   | None => pos
                   end in
                 Ok (Autocomplete.mkResult from cmCompletions)))
    end.

(** What the editing surface receives from a completion source: nothing for
    [null], else the value of the promise once [getCompletions] has
    resolved with [completions] while the store is [storeOnArrival]. *)
Definition awaitCompletion (source : CompletionSource)
           (storeOnArrival : Lsp.State) (completions : list Lsp.CompletionItem)
  : result (option Autocomplete.CompletionResult) :=
  match source with
  | NoCompletions => Ok None
  | Requested _ _ callback =>
      let* r := callback storeOnArrival completions in Ok (Some r)
  end.

(** The file a completion request was issued for. *)
Definition requestedFile (source : CompletionSource) : option jsstring :=
  match source with
  | NoCompletions => None
  | Requested filePath _ _ => Some filePath
  end.

(** ** Hover *)

Module Hover.
Section WithData.

(** [EnhancedHoverData] of the store, an object type the component only
    passes on. *)
Variable EnhancedHoverData : Type.

(** What [getHoverInfo] resolves with when it is not [null]. *)
Record HoverInfo : Type := mkHoverInfo {
  enhancedContents : option EnhancedHoverData
}.

Record ScreenPos : Type := mkScreenPos {
  top : Q;
  left : Q
}.

(** A call [showHoverFn(data, pos)], scheduled with [setTimeout(.., 0)]. *)
Record ShowHover : Type := mkShowHover {
  data : EnhancedHoverData;
  at_pos : ScreenPos
}.

(** The handler given to [hoverTooltip] always answers [null] to
    CodeMirror; what it does is to schedule at most one [showHoverFn]
    call.  The callback is the part after [await getHoverInfo(..)]: it
    receives the store and the view as they are when the promise
    resolves, and the value it resolves with. *)
Inductive HoverSource : Type :=
| NoHover
| HoverRequested (filePath : jsstring) (lspPosition : Lsp.Position)
                 (callback : Lsp.State -> EditorView -> option HoverInfo ->
                             option ShowHover).

(** [filePath] is the property of the component the handler closes over. *)
Definition createLspHover (filePath : option jsstring) (store : Lsp.State)
           (view : EditorView) (pos : Z) : result HoverSource :=
  let currentFilePath := Lsp.currentFilePath store in
  if negb (truthy filePath) || strictNeq filePath currentFilePath
  then Ok NoHover
  else
    match filePath with
    | None => Ok NoHover
    | Some filePath =>
        let* line := CM.lineAt (doc view) pos in
        let lspPosition :=
          Lsp.mkPosition (CM.number line - 1) (pos - CM.from line) in
        Ok (HoverRequested filePath lspPosition
              (fun _storeOnArrival viewOnArrival hoverInfo =>
                 match hoverInfo with
                 | None => None
                 | Some hoverInfo =>
                     match enhancedContents hoverInfo with
                     | None => None
                     | Some contents =>
                         match coordsAtPos viewOnArrival pos with
                         | Some posCoords =>
                             Some (mkShowHover contents
                                     (mkScreenPos
                                        (Rect.top posCoords + 20)%Q
                                        (Rect.left posCoords)))
                         | None => None
                         end
                     end
                 end))
    end.

(** The [showHoverFn] call a hover leads to, if any. *)
Definition awaitHover (source : HoverSource) (storeOnArrival : Lsp.State)
           (viewOnArrival : EditorView) (hoverInfo : option HoverInfo)
  : option ShowHover :=
  match source with
  | NoHover => None
  | HoverRequested _ _ callback =>
      callback storeOnArrival viewOnArrival hoverInfo
  end.

End WithData.
End Hover.

Arguments Hover.mkHoverInfo {EnhancedHoverData} _.
Arguments Hover.enhancedContents {EnhancedHoverData} _.
Arguments Hover.mkShowHover {EnhancedHoverData} _ _.
Arguments Hover.NoHover {EnhancedHoverData}.
Arguments Hover.HoverRequested {EnhancedHoverData} _ _ _.
Arguments Hover.createLspHover {EnhancedHoverData} _ _ _ _.
Arguments Hover.awaitHover {EnhancedHoverData} _ _ _ _.

(** ** Navigation *)

(** The transaction of [handleNavigation]: a cursor selection and the
    request to scroll it into view. *)
Record Transaction : Type := mkTransaction {
  anchor : Z;
  selection_head : Z;
  scrollIntoView : bool
}.

(** [view.state.update(spec)] followed by [view.dispatch(transaction)]: a
    [RangeError] is thrown, and the view is left as it was, when the
    selection points before the start or behind the end of the document;
    else the selection of the view is replaced.  The model of the view has
    no scroll position: the layout is carried over as it is, and what the
    transaction asks of the scroll position is read off the transaction
    ([scrollTarget]). *)
Definition dispatch (view : EditorView) (tr : Transaction) : result EditorView :=
  if (Z.min (anchor tr) (selection_head tr) <? 0)
     || (Z.max (anchor tr) (selection_head tr) >? CM.length (doc view))
  then Throw RangeError
  else Ok (mkEditorView (doc view) (selection_head tr) (coordsAtPos view)).

(** The offset the view is asked to scroll into view when it applies the
    transaction: the head of the selection, when [scrollIntoView] is
    set. *)
Definition scrollTarget (tr : Transaction) : option Z :=
  if scrollIntoView tr then Some (selection_head tr) else None.

(** The transaction the navigation listener builds from the detail of the
    event, for the document of the view. *)
Definition navigationTransaction (doc : CM.Text) (detail : Lsp.Position)
  : result Transaction :=
  let line := Lsp.line detail in
  let character := Lsp.character detail in
  let targetLine := Z.min (CM.lines doc) (line + 1) in
  let* l1 := CM.line doc targetLine in
  let lineStart := CM.from l1 in
  let* l2 := CM.line doc targetLine in
  let lineLength := CM.line_length l2 in
  let pos := lineStart + Z.min character lineLength in
  Ok (mkTransaction pos pos true).

(** The listener for [navigate-to-position] events.  [viewRef] is
    [viewRef.current]; the answer is the view after the event, [None] when
    there is no view. *)
Definition handleNavigation (viewRef : option EditorView)
           (detail : Lsp.Position) : result (option EditorView) :=
  match viewRef with
  | None => Ok None
  | Some view =>
      let doc := doc view in
      let* transaction := navigationTransaction doc detail in
      let* view' := dispatch view transaction in
      Ok (Some view')
  end.

(** ** Document revisions *)

(** What [handleChange] does to the outside. *)
Inductive Effect : Type :=
| UpdateDocument (filePath content : jsstring) (version : Z)
| SetCurrentContent (content : jsstring)
| OnChange (content : jsstring).

(** [useState(1)] *)
Definition initialDocumentVersion : Z := 1.

(** [handleChange(content)] for the [filePath] of the component:
    [documentVersion] is the state before the call, [editorContainer] tells
    whether the container element was found.  The answer is the state after
    the call and the effects of the call.  [setDocumentVersion] only queues
    its updater: React runs the updaters once each, in the order of the
    calls, when the state is next rendered, so the [updateDocument] call
    comes after the two other effects of the call.  When several changes
    are handled before one render, their updaters run together at that
    render; what follows reads the calls of each kind in their order, and
    nothing depends on how the kinds interleave. *)
Definition handleChange (filePath : jsstring) (editorContainer : bool)
           (content : jsstring) (documentVersion : Z) : Z * list Effect :=
  let newVersion := documentVersion + 1 in
  (newVersion,
   (if editorContainer then [SetCurrentContent content] else [])
   ++ [OnChange content; UpdateDocument filePath content newVersion]).

(** The change listener is installed when the component has an [onChange]
    property and a file path, the server runs and the view exists. *)
Definition listensToChanges (onChange : bool) (filePath : option jsstring)
           (isServerRunning : bool) (editorView : bool) : bool :=
  onChange && truthy filePath && isServerRunning && editorView.

(** Document changes handled one after the other. *)
Fixpoint handleChanges (filePath : jsstring) (editorContainer : bool)
         (contents : list jsstring) (documentVersion : Z) : Z * list Effect :=
  match contents with
  | [] => (documentVersion, [])
  | content :: rest =>
      let '(v1, e1) := handleChange filePath editorContainer content
                                    documentVersion in
      let '(v2, e2) := handleChanges filePath editorContainer rest v1 in
      (v2, e1 ++ e2)
  end.

(** The revisions sent to the server for [filePath], in their order. *)
Fixpoint sentRevisions (filePath : jsstring) (effects : list Effect) : list Z :=
  match effects with
  | [] => []
  | UpdateDocument f _ version :: rest =>
      if JS.eqb f filePath then version :: sentRevisions filePath rest
      else sentRevisions filePath rest
  | _ :: rest => sentRevisions filePath rest
  end.

(** ** Project root *)

(** A settled promise. *)
Inductive Settled (A : Type) : Type :=
| Resolved (a : A)
| Rejected.
Arguments Resolved {A} a.
Arguments Rejected {A}.

(** [getProjectRoot(filePath, lang)], given how
    [invoke('find_project_root', ..)] settles. *)
Definition getProjectRoot (invoke : Settled jsstring)
           (filePath lang : jsstring) : jsstring :=
  match invoke with
  | Resolved rootPath => rootPath
  | Rejected => substring filePath 0 (lastIndexOf filePath "/"%char)
  end.

(** ** Language grammars *)

Module Lang.

(** The grammar extensions the component chooses from;
    [javascript jsx typescript] is [javascript({jsx, typescript})]. *)
Inductive Extension : Type :=
| html | css
| javascript (jsx typescript : bool)
| json | python | java | rust | cpp | php | xml | markdown | sql
| sass | less | yaml.

End Lang.

(** The [switch] compares with [===], case by case from the top. *)
Definition getLanguageExtension (lang : jsstring) : Lang.Extension :=
  if JS.eqb lang (js "html") then Lang.html
  else if JS.eqb lang (js "css") then Lang.css
  else if JS.eqb lang (js "javascript") then Lang.javascript false false
  else if JS.eqb lang (js "typescript") then Lang.javascript false true
  else if JS.eqb lang (js "jsx") then Lang.javascript true false
  else if JS.eqb lang (js "tsx") then Lang.javascript true true
  else if JS.eqb lang (js "json") then Lang.json
  else if JS.eqb lang (js "python") then Lang.python
  else if JS.eqb lang (js "java") then Lang.java
  else if JS.eqb lang (js "rust") then Lang.rust
  else if JS.eqb lang (js "cpp") then Lang.cpp
  else if JS.eqb lang (js "c++") then Lang.cpp
  else if JS.eqb lang (js "c") then Lang.cpp
  else if JS.eqb lang (js "php") then Lang.php
  else if JS.eqb lang (js "xml") then Lang.xml
  else if JS.eqb lang (js "markdown") then Lang.markdown
  else if JS.eqb lang (js "md") then Lang.markdown
  else if JS.eqb lang (js "sql") then Lang.sql
  else if JS.eqb lang (js "sass") then Lang.sass
  else if JS.eqb lang (js "less") then Lang.less
  else if JS.eqb lang (js "yaml") then Lang.yaml
  else Lang.javascript false true.

(** ** The position translator

    Modelled from the spec: the Position Translator's [toEditorOffset]
    (section 4.1), which the component does not define as a function of its
    own.  A line beyond the end of the document clamps to the last line, a
    character beyond the end of the line clamps to the line's length, and
    negative values clamp to zero. *)

Definition clamp (lo hi x : Z) : Z := Z.max lo (Z.min hi x).

(** Offset of the start of the line with zero-based index [n]. *)
Definition lineStartOffset (d : CM.Text) (n : nat) : Z :=
  CM.joinedLength1 (firstn n (CM.text_lines d)).

(** Text of the line with zero-based index [n]. *)
Definition lineText (d : CM.Text) (n : nat) : jsstring :=
  nth n (CM.text_lines d) [].

Definition lastLine (d : CM.Text) : Z := CM.lines d - 1.

Definition toEditorOffset (d : CM.Text) (p : Lsp.Position) : Z :=
  let n := Z.to_nat (clamp 0 (lastLine d) (Lsp.line p)) in
  lineStartOffset d n + clamp 0 (JS.length (lineText d n)) (Lsp.character p).

(** ** Runs of identifier characters *)

Fixpoint takeWhile {A : Type} (f : A -> bool) (l : list A) : list A :=
  match l with
  | [] => []
  | x :: l' => if f x then x :: takeWhile f l' else []
  end.

(** Length of the longest run of characters of the class that ends at the
    end of [s]. *)
Definition identRunLength (s : jsstring) : Z :=
  JS.length (takeWhile identClass (rev s)).

(** Start of the longest run of characters of the class that ends at
    column [c] of a line. *)
Definition identRunStart (lineText : jsstring) (c : Z) : Z :=
  c - identRunLength (firstn (Z.to_nat c) lineText).

(** The languages [getLanguageExtension] has a case for. *)
Definition handledLanguages : list jsstring :=
  map js ["html"; "css"; "javascript"; "typescript"; "jsx"; "tsx"; "json";
          "python"; "java"; "rust"; "cpp"; "c++"; "c"; "php"; "xml";
          "markdown"; "md"; "sql"; "sass"; "less"; "yaml"]%string.

(** [a; a+1; ..] of length [n]. *)
Fixpoint countFrom (a : Z) (n : nat) : list Z :=
  match n with
  | O => []
  | S n' => a :: countFrom (a + 1) n'
  end.

(** ** Server lifecycle

    The effect of the component that starts the server and opens the
    document (it runs again whenever one of its dependencies changes), and
    the cleanup function it returns.  Both close over the properties and
    the store values of the render the effect was created in. *)

Inductive LspCall : Type :=
| StartLspServer (language rootPath : jsstring)
| OpenDocument (filePath language text : jsstring)
| CloseDocument (filePath : jsstring).

(** The store calls one run of the effect makes, in their order.
    [initialValue] is [None] for [undefined]; [invoke] tells how
    [find_project_root] settles and [started] how [startLspServer] settles
    when it is called.  A rejection is caught and logged, and ends the
    run. *)
Definition lspEffect (filePath : option jsstring) (language : jsstring)
           (initialValue : option jsstring)
           (isWebSocketRunning isServerRunning : bool)
           (invoke : Settled jsstring) (started : Settled unit)
  : list LspCall :=
  if truthy filePath && truthy (Some language) && isWebSocketRunning then
    match filePath with
    | None => []
    | Some filePath =>
        let rootPath := getProjectRoot invoke filePath language in
        let opening :=
          match initialValue with
          | Some text => [OpenDocument filePath language text]
          | None => []
          end in
        if negb isServerRunning then
          StartLspServer language rootPath
          :: match started with
             | Resolved _ => opening
             | Rejected => []
             end
        else opening
    end
  else [].

(** The store calls of the cleanup function of the same run. *)
Definition lspEffectCleanup (filePath : option jsstring)
           (isServerRunning : bool) : list LspCall :=
  if truthy filePath && isServerRunning then
    match filePath with
    | None => []
    | Some filePath => [CloseDocument filePath]
    end
  else [].

Definition isStart (c : LspCall) : bool :=
  match c with StartLspServer _ _ => true | _ => false end.

Definition isOpen (c : LspCall) : bool :=
  match c with OpenDocument _ _ _ => true | _ => false end.

(** ** Reading the effects of [handleChange] *)

(** The [updateDocument(filePath, content, version)] calls, in their
    order. *)
Fixpoint sentUpdates (effects : list Effect)
  : list (jsstring * jsstring * Z) :=
  match effects with
  | [] => []
  | UpdateDocument f content version :: rest =>
      (f, content, version) :: sentUpdates rest
  | _ :: rest => sentUpdates rest
  end.

(** The contents [onChange] was called with, in their order. *)
Fixpoint notifiedContents (effects : list Effect) : list jsstring :=
  match effects with
  | [] => []
  | OnChange content :: rest => content :: notifiedContents rest
  | _ :: rest => notifiedContents rest
  end.


(** A diagnostic of the first line, within the line. *)
Definition onFirstLine (d : CM.Text) (diag : Lsp.DiagnosticItem) : Prop :=
  Lsp.line (Lsp.start (Lsp.range diag)) = 0
  /\ Lsp.line (Lsp.end_ (Lsp.range diag)) = 0
  /\ 0 <= Lsp.character (Lsp.start (Lsp.range diag))
     <= JS.length (CM.first_line d)
  /\ 0 <= Lsp.character (Lsp.end_ (Lsp.range diag))
     <= JS.length (CM.first_line d).

(** * Properties *)

(** ** Strings *)

Lemma eqb_eq (a b : jsstring) : JS.eqb a b = true <-> a = b.
Proof.
  revert b; induction a as [|x a IH]; intros [|y b]; simpl;
    try (split; [discriminate | discriminate]); try tauto.
  rewrite andb_true_iff, Ascii.eqb_eq, IH.
  split; [intros [-> ->]; reflexivity | intros E; inversion E; auto].
Qed.

Lemma eqb_refl (a : jsstring) : JS.eqb a a = true.
Proof. apply eqb_eq; reflexivity. Qed.

Lemma eqb_neq (a b : jsstring) : JS.eqb a b = false <-> a <> b.
Proof.
  rewrite <- eqb_eq. destruct (JS.eqb a b); split; congruence.
Qed.

Lemma strictNeq_same (v : option jsstring) : strictNeq v v = false.
Proof. destruct v; simpl; [rewrite eqb_refl|]; reflexivity. Qed.

Lemma length_nonneg (s : jsstring) : 0 <= JS.length s.
Proof. unfold JS.length; lia. Qed.

(** ** Grammar selection *)

(** C9: a language string that is none of the handled cases gets the
    JavaScript grammar with TypeScript enabled (and JSX off). *)
Theorem getLanguageExtension_fallback (lang : jsstring) :
  ~ In lang handledLanguages ->
  getLanguageExtension lang = Lang.javascript false true.
Proof.
  intros H. unfold getLanguageExtension.
  repeat match goal with
         | |- context [JS.eqb lang ?s] =>
             let E := fresh "E" in
             destruct (JS.eqb lang s) eqn:E;
             [ apply eqb_eq in E; exfalso; apply H; rewrite E;
               unfold handledLanguages; simpl; tauto
             | clear E ]
         end.
  reflexivity.
Qed.

Lemma getLanguageExtension_fallback_witness :
  ~ In (js "go") handledLanguages /\
  getLanguageExtension (js "go") = Lang.javascript false true.
Proof.
  assert (H : ~ In (js "go") handledLanguages).
  { unfold handledLanguages; simpl; intuition discriminate. }
  split; [exact H | exact (getLanguageExtension_fallback (js "go") H)].
Defined.

(** ** Project root *)

Lemma lastIndexOfFrom_absent (c : ascii) (s : jsstring) :
  ~ In c s -> forall i acc, lastIndexOfFrom c s i acc = acc.
Proof.
  induction s as [|x s IH]; simpl; intros H i acc; [reflexivity|].
  rewrite IH by tauto.
  destruct (Ascii.eqb x c) eqn:E; [|reflexivity].
  apply Ascii.eqb_eq in E. exfalso; apply H; left; exact E.
Qed.

Lemma lastIndexOfFrom_last (c : ascii) (pre post : jsstring) :
  ~ In c post ->
  forall i acc,
    lastIndexOfFrom c (pre ++ c :: post) i acc = i + JS.length pre.
Proof.
  intros H. induction pre as [|x pre IH]; intros i acc.
  - simpl. rewrite Ascii.eqb_refl, lastIndexOfFrom_absent by exact H.
    unfold JS.length; simpl; lia.
  - simpl. rewrite IH. unfold JS.length; simpl List.length. lia.
Qed.

Lemma substring_prefix (pre rest : jsstring) :
  substring (pre ++ rest) 0 (JS.length pre) = pre.
Proof.
  unfold substring, clampIndex, JS.length.
  rewrite length_app, Nat2Z.inj_add.
  replace (Z.max 0 (Z.min 0 _)) with 0 by lia.
  replace (Z.max 0 (Z.min (Z.of_nat (List.length pre)) _))
    with (Z.of_nat (List.length pre)) by lia.
  replace (Z.min 0 (Z.of_nat (List.length pre))) with 0 by lia.
  replace (Z.max 0 (Z.of_nat (List.length pre)))
    with (Z.of_nat (List.length pre)) by lia.
  rewrite Z.sub_0_r, Nat2Z.id. simpl.
  rewrite firstn_app, firstn_all, Nat.sub_diag. simpl. apply app_nil_r.
Qed.

Lemma substring_to_minus_one (s : jsstring) : substring s 0 (-1) = [].
Proof.
  unfold substring, clampIndex.
  pose proof (length_nonneg s).
  replace (Z.max 0 (Z.min 0 (JS.length s))) with 0 by lia.
  replace (Z.max 0 (Z.min (-1) (JS.length s))) with 0 by lia.
  reflexivity.
Qed.

(** C10: when [find_project_root] fails, the root is the part of
    [filePath] before its last ['/'], and the empty string when [filePath]
    holds no ['/']. *)
Theorem getProjectRoot_fallback (filePath lang : jsstring) :
  (forall pre post,
      filePath = pre ++ "/"%char :: post -> ~ In "/"%char post ->
      getProjectRoot Rejected filePath lang = pre)
  /\ (~ In "/"%char filePath -> getProjectRoot Rejected filePath lang = []).
Proof.
  split.
  - intros pre post -> H. unfold getProjectRoot, lastIndexOf.
    rewrite lastIndexOfFrom_last by exact H. simpl.
    apply substring_prefix.
  - intros H. unfold getProjectRoot, lastIndexOf.
    rewrite lastIndexOfFrom_absent by exact H.
    apply substring_to_minus_one.
Qed.

Lemma getProjectRoot_fallback_witness :
  getProjectRoot Rejected (js "/home/me/app/src/main.ts") (js "typescript")
  = js "/home/me/app/src"
  /\ getProjectRoot Rejected (js "main.ts") (js "typescript") = [].
Proof.
  split.
  - apply (proj1 (getProjectRoot_fallback (js "/home/me/app/src/main.ts")
                    (js "typescript"))
             (js "/home/me/app/src") (js "main.ts")).
    + reflexivity.
    + simpl; intuition discriminate.
  - apply (proj2 (getProjectRoot_fallback (js "main.ts") (js "typescript"))).
    simpl; intuition discriminate.
Defined.

(** ** Document revisions *)

Lemma sentRevisions_app (f : jsstring) (a b : list Effect) :
  sentRevisions f (a ++ b) = sentRevisions f a ++ sentRevisions f b.
Proof.
  induction a as [|e a IH]; simpl; [reflexivity|].
  destruct e; try exact IH.
  destruct (JS.eqb filePath f); simpl; rewrite IH; reflexivity.
Qed.

Lemma sentRevisions_handleChange (f : jsstring) (c : bool)
      (content : jsstring) (v : Z) :
  handleChange f c content v
  = (v + 1, snd (handleChange f c content v))
  /\ sentRevisions f (snd (handleChange f c content v)) = [v + 1].
Proof.
  unfold handleChange; cbn [fst snd].
  split; [reflexivity|]. destruct c; simpl; rewrite eqb_refl; reflexivity.
Qed.

Lemma handleChanges_revisions (f : jsstring) (c : bool)
      (contents : list jsstring) :
  forall v,
    fst (handleChanges f c contents v) = v + Z.of_nat (List.length contents)
    /\ sentRevisions f (snd (handleChanges f c contents v))
       = countFrom (v + 1) (List.length contents).
Proof.
  induction contents as [|content rest IH]; intros v.
  - simpl; split; [lia | reflexivity].
  - cbn [handleChanges].
    destruct (sentRevisions_handleChange f c content v) as [E1 E2].
    rewrite E1.
    destruct (handleChanges f c rest (v + 1)) as [v2 e2] eqn:E.
    specialize (IH (v + 1)). rewrite E in IH. simpl in IH.
    destruct IH as [IH1 IH2]. cbn [fst snd].
    rewrite sentRevisions_app, E2, IH2. cbn [List.length countFrom app].
    split; [lia | reflexivity].
Qed.

Lemma countFrom_lower (n : nat) :
  forall a x, In x (countFrom a n) -> a <= x.
Proof.
  induction n as [|n IH]; simpl; intros a x H; [contradiction|].
  destruct H as [<- | H]; [lia|]. apply IH in H. lia.
Qed.

Lemma countFrom_sorted (n : nat) :
  forall a, StronglySorted Z.lt (countFrom a n).
Proof.
  induction n as [|n IH]; intros a; simpl; constructor.
  - apply IH.
  - apply Forall_forall. intros x H. apply countFrom_lower in H. lia.
Qed.

Lemma countFrom_length (n : nat) : forall a, List.length (countFrom a n) = n.
Proof. induction n; intros a; simpl; [|rewrite IHn]; reflexivity. Qed.

Lemma countFrom_nth (n : nat) :
  forall a i, (i < n)%nat -> nth i (countFrom a n) 0 = a + Z.of_nat i.
Proof.
  induction n as [|n IH]; intros a i H; [lia|].
  destruct i as [|i]; simpl countFrom; cbn [nth]; [lia|].
  rewrite IH by lia. lia.
Qed.

Lemma sorted_NoDup (l : list Z) : StronglySorted Z.lt l -> NoDup l.
Proof.
  induction 1 as [|x l _ IH HF]; constructor; [|exact IH].
  intros Hin. rewrite Forall_forall in HF. apply HF in Hin. lia.
Qed.

(** C5: from the initial revision 1, [N] document changes handled one after
    the other send the revisions 2, 3, .., N + 1 for the file, in this
    order: [N] numbers, strictly increasing, without repeats, each one more
    than the one before. *)
Theorem handleChanges_revisions_consecutive
        (filePath : jsstring) (editorContainer : bool)
        (contents : list jsstring) :
  let N := List.length contents in
  let revisions :=
    sentRevisions filePath
      (snd (handleChanges filePath editorContainer contents
                          initialDocumentVersion)) in
  revisions = countFrom 2 N
  /\ List.length revisions = N
  /\ StronglySorted Z.lt revisions
  /\ NoDup revisions
  /\ revisions = map (fun i => 2 + Z.of_nat i) (seq 0 N).
Proof.
  intros N revisions.
  assert (E : revisions = countFrom 2 N).
  { subst revisions N.
    apply (handleChanges_revisions filePath editorContainer contents
             initialDocumentVersion). }
  rewrite E. split; [reflexivity|].
  split; [apply countFrom_length|].
  split; [apply countFrom_sorted|].
  split; [apply sorted_NoDup, countFrom_sorted|].
  apply nth_ext with (d := 0) (d' := 2 + Z.of_nat 0).
  - rewrite countFrom_length, length_map, length_seq; reflexivity.
  - intros i Hi. rewrite countFrom_length in Hi.
    rewrite countFrom_nth by exact Hi.
    rewrite (map_nth (fun i => 2 + Z.of_nat i)), seq_nth by exact Hi.
    reflexivity.
Qed.

(** ** Documents *)

Lemma geb_false_iff (a b : Z) : (a >=? b) = false <-> a < b.
Proof. rewrite Z.geb_leb. apply Z.leb_gt. Qed.

Lemma joinedLength1_nonneg (ls : list jsstring) : 0 <= CM.joinedLength1 ls.
Proof.
  induction ls as [|l ls IH]; simpl; [lia|].
  pose proof (length_nonneg l). lia.
Qed.

Lemma joinedLength1_firstn_nth (ls : list jsstring) :
  forall n, (n < List.length ls)%nat ->
    CM.joinedLength1 (firstn n ls) + JS.length (nth n ls []) + 1
    <= CM.joinedLength1 ls.
Proof.
  induction ls as [|l ls IH]; intros n H; simpl in H; [lia|].
  destruct n as [|n]; simpl.
  - pose proof (joinedLength1_nonneg ls). lia.
  - specialize (IH n ltac:(lia)). lia.
Qed.

(** [doc.line(n)] walks to the line with index [n - 1]. *)
Lemma lineInner_isLine (ls : list jsstring) :
  forall k line offset, (k < List.length ls)%nat ->
    CM.lineInner ls (line + Z.of_nat k) true line offset
    = Some (CM.mkLine
              (offset + CM.joinedLength1 (firstn k ls))
              (offset + CM.joinedLength1 (firstn k ls)
               + JS.length (nth k ls []))
              (line + Z.of_nat k)
              (nth k ls [])).
Proof.
  induction ls as [|l ls IH]; intros k line offset H; simpl in H; [lia|].
  destruct k as [|k].
  - simpl. rewrite Z.add_0_r.
    replace (line >=? line) with true by (symmetry; apply Z.geb_le; lia).
    rewrite Z.add_0_r. reflexivity.
  - cbn [CM.lineInner].
    replace (line >=? line + Z.of_nat (S k)) with false
      by (symmetry; apply geb_false_iff; lia).
    replace (line + Z.of_nat (S k)) with (line + 1 + Z.of_nat k) by lia.
    rewrite IH by lia. cbn [firstn nth CM.joinedLength1].
    f_equal. f_equal; lia.
Qed.

Lemma line_in_range (d : CM.Text) (n : Z) :
  1 <= n <= CM.lines d ->
  CM.line d n
  = Ok (CM.mkLine
          (lineStartOffset d (Z.to_nat (n - 1)))
          (lineStartOffset d (Z.to_nat (n - 1))
           + JS.length (lineText d (Z.to_nat (n - 1))))
          n
          (lineText d (Z.to_nat (n - 1)))).
Proof.
  intros H. unfold CM.line.
  replace ((n <? 1) || (n >? CM.lines d)) with false.
  2:{ symmetry. apply orb_false_iff. split; [apply Z.ltb_ge; lia|].
      rewrite Z.gtb_ltb. apply Z.ltb_ge; lia. }
  unfold CM.lines in H.
  pose proof (lineInner_isLine (CM.text_lines d) (Z.to_nat (n - 1)) 1 0
                ltac:(lia)) as E.
  replace (1 + Z.of_nat (Z.to_nat (n - 1))) with n in E by lia.
  rewrite E. reflexivity.
Qed.

Lemma line_out_of_range (d : CM.Text) (n : Z) :
  n < 1 \/ CM.lines d < n -> CM.line d n = Throw RangeError.
Proof.
  intros H. unfold CM.line.
  replace ((n <? 1) || (n >? CM.lines d)) with true; [reflexivity|].
  symmetry. apply orb_true_iff. rewrite Z.gtb_ltb.
  destruct H; [left; apply Z.ltb_lt | right; apply Z.ltb_lt]; lia.
Qed.

(** [doc.lineAt(pos)] finds a line that holds [pos], for a position of
    the document. *)
Lemma lineInner_atPos (ls : list jsstring) :
  forall pos line offset,
    offset <= pos <= offset + CM.joinedLength1 ls - 1 ->
    exists l,
      CM.lineInner ls pos false line offset = Some l
      /\ offset <= CM.from l <= pos
      /\ pos <= CM.to l
      /\ CM.to l = CM.from l + JS.length (CM.text l)
      /\ line <= CM.number l.
Proof.
  induction ls as [|s ls IH]; intros pos line offset H.
  - simpl in H. lia.
  - cbn [CM.lineInner]. cbn [CM.joinedLength1] in H.
    destruct (offset + JS.length s >=? pos) eqn:E.
    + apply Z.geb_le in E. eexists; split; [reflexivity|]. simpl. lia.
    + apply geb_false_iff in E.
      destruct (IH pos (line + 1) (offset + JS.length s + 1)) as [l Hl];
        [lia|].
      exists l. destruct Hl as (H1 & H2 & H3 & H4 & H5).
      pose proof (length_nonneg s).
      repeat split; try assumption; lia.
Qed.

Lemma lineAt_in_range (d : CM.Text) (pos : Z) :
  0 <= pos <= CM.length d ->
  exists l,
    CM.lineAt d pos = Ok l
    /\ 0 <= CM.from l <= pos
    /\ pos <= CM.to l
    /\ CM.to l = CM.from l + JS.length (CM.text l)
    /\ 1 <= CM.number l.
Proof.
  intros H. unfold CM.lineAt.
  replace ((pos <? 0) || (pos >? CM.length d)) with false.
  2:{ symmetry. apply orb_false_iff. rewrite Z.gtb_ltb.
      split; apply Z.ltb_ge; lia. }
  unfold CM.length in H.
  destruct (lineInner_atPos (CM.text_lines d) pos 1 0 ltac:(lia))
    as (l & E & H1 & H2 & H3 & H4).
  exists l. rewrite E. simpl. tauto.
Qed.

(** A position of the first line is on the line that starts at 0. *)
Lemma lineAt_first_line (d : CM.Text) (pos : Z) :
  0 <= pos <= JS.length (CM.first_line d) ->
  CM.lineAt d pos
  = Ok (CM.mkLine 0 (JS.length (CM.first_line d)) 1 (CM.first_line d)).
Proof.
  intros H. unfold CM.lineAt, CM.length, CM.text_lines.
  cbn [CM.joinedLength1 CM.lineInner].
  pose proof (joinedLength1_nonneg (CM.more_lines d)).
  replace ((pos <? 0) || _) with false.
  2:{ symmetry. apply orb_false_iff. rewrite Z.gtb_ltb.
      split; apply Z.ltb_ge; lia. }
  replace (0 + JS.length (CM.first_line d) >=? pos) with true
    by (symmetry; apply Z.geb_le; lia).
  reflexivity.
Qed.

Lemma lineAt_out_of_range (d : CM.Text) (pos : Z) :
  pos < 0 \/ CM.length d < pos -> CM.lineAt d pos = Throw RangeError.
Proof.
  intros H. unfold CM.lineAt.
  replace ((pos <? 0) || (pos >? CM.length d)) with true; [reflexivity|].
  symmetry. apply orb_true_iff. rewrite Z.gtb_ltb.
  destruct H; [left; apply Z.ltb_lt | right; apply Z.ltb_lt]; lia.
Qed.

(** ** Navigation *)

Lemma lines_positive (d : CM.Text) : 1 <= CM.lines d.
Proof. unfold CM.lines, CM.text_lines. simpl List.length. lia. Qed.

Lemma offset_in_document (d : CM.Text) (n : nat) (c : Z) :
  (n < List.length (CM.text_lines d))%nat ->
  0 <= c <= JS.length (lineText d n) ->
  0 <= lineStartOffset d n + c <= CM.length d.
Proof.
  intros Hn Hc. unfold lineStartOffset, lineText, CM.length in *.
  pose proof (joinedLength1_firstn_nth (CM.text_lines d) n Hn).
  pose proof (joinedLength1_nonneg (firstn n (CM.text_lines d))).
  lia.
Qed.

Lemma handleNavigation_no_view (detail : Lsp.Position) :
  handleNavigation None detail = Ok None.
Proof. reflexivity. Qed.

(** C4, as amended: for a navigation event with a line and a character that
    are not negative, and a view in place, the handler moves the caret to
    the offset of the position clamped to the last line and to the length
    of that line; the offset is a position of the document, the document
    is left as it is, and nothing is thrown.  The transaction it
    dispatches puts anchor and head at that offset and asks for the offset
    to be scrolled into view. *)
Theorem handleNavigation_clamps (view : EditorView) (L C : Z) :
  0 <= L -> 0 <= C ->
  exists view',
    handleNavigation (Some view) (Lsp.mkPosition L C) = Ok (Some view')
    /\ head view' = toEditorOffset (doc view) (Lsp.mkPosition L C)
    /\ head view'
       = lineStartOffset (doc view) (Z.to_nat (Z.min L (lastLine (doc view))))
         + Z.min C (JS.length (lineText (doc view)
                                 (Z.to_nat (Z.min L (lastLine (doc view))))))
    /\ 0 <= head view' <= CM.length (doc view)
    /\ doc view' = doc view
    /\ exists transaction,
        navigationTransaction (doc view) (Lsp.mkPosition L C) = Ok transaction
        /\ anchor transaction = head view'
        /\ selection_head transaction = head view'
        /\ scrollIntoView transaction = true
        /\ scrollTarget transaction = Some (head view')
        /\ dispatch view transaction = Ok view'.
Proof.
  intros HL HC.
  pose proof (lines_positive (doc view)) as Hlines.
  set (d := doc view) in *.
  set (n := Z.to_nat (Z.min L (lastLine d))).
  assert (Hn : (n < List.length (CM.text_lines d))%nat).
  { subst n. unfold lastLine, CM.lines in *. lia. }
  set (c := Z.min C (JS.length (lineText d n))).
  assert (Hc : 0 <= c <= JS.length (lineText d n)).
  { subst c. pose proof (length_nonneg (lineText d n)). lia. }
  pose proof (offset_in_document d n c Hn Hc) as Hpos.
  assert (Et : Z.to_nat (Z.min (CM.lines d) (L + 1) - 1) = n).
  { subst n. unfold lastLine. f_equal. lia. }
  assert (Etr : navigationTransaction d (Lsp.mkPosition L C)
                = Ok (mkTransaction (lineStartOffset d n + c)
                                    (lineStartOffset d n + c) true)).
  { unfold navigationTransaction. cbn [Lsp.line Lsp.character].
    rewrite line_in_range by lia. rewrite Et.
    unfold CM.line_length. cbn [bind CM.from CM.to].
    replace (lineStartOffset d n + JS.length (lineText d n)
             - lineStartOffset d n) with (JS.length (lineText d n)) by lia.
    reflexivity. }
  assert (Ed : dispatch view (mkTransaction (lineStartOffset d n + c)
                                            (lineStartOffset d n + c) true)
               = Ok (mkEditorView d (lineStartOffset d n + c)
                                  (coordsAtPos view))).
  { unfold dispatch. cbn [anchor selection_head]. fold d.
    replace ((Z.min (lineStartOffset d n + c) (lineStartOffset d n + c) <? 0)
             || (Z.max (lineStartOffset d n + c) (lineStartOffset d n + c)
                 >? CM.length d)) with false; [reflexivity|].
    symmetry. apply orb_false_iff. rewrite Z.gtb_ltb.
    split; apply Z.ltb_ge; lia. }
  unfold handleNavigation. fold d. cbn zeta. rewrite Etr. cbn [bind].
  rewrite Ed. cbn [bind]. eexists. split; [reflexivity|]. cbn [head doc].
  split; [|split; [reflexivity | split; [exact Hpos | split; [reflexivity|]]]].
  - unfold toEditorOffset, clamp. cbn [Lsp.line Lsp.character].
    replace (Z.to_nat (Z.max 0 (Z.min (lastLine d) L))) with n
      by (subst n; f_equal; unfold lastLine in *; lia).
    f_equal. subst c. pose proof (length_nonneg (lineText d n)). lia.
  - eexists. split; [reflexivity|].
    unfold scrollTarget. cbn [anchor selection_head scrollIntoView].
    repeat split. exact Ed.
Qed.

Lemma handleNavigation_clamps_witness :
  let view := mkEditorView (CM.ofString (js "ab
cde
f")) 0 (fun _ => None) in
  exists view',
    handleNavigation (Some view) (Lsp.mkPosition 1000 5) = Ok (Some view')
    /\ head view' = 8.
Proof.
  intros view.
  destruct (handleNavigation_clamps view 1000 5 ltac:(lia) ltac:(lia))
    as (view' & E & _ & H & _).
  exists view'. split; [exact E | rewrite H; reflexivity].
Defined.

(** C4, the claim as stated fails: with line [-1] the handler asks for line
    [0] of the document and a [RangeError] is thrown; with character [-1]
    on line [0] the offset is [-1], the transaction is refused with a
    [RangeError], and the caret stays where it was. *)
Lemma handleNavigation_negative_input :
  let view := mkEditorView (CM.ofString (js "a")) 0 (fun _ => None) in
  handleNavigation (Some view) (Lsp.mkPosition (-1) 0) = Throw RangeError
  /\ handleNavigation (Some view) (Lsp.mkPosition 0 (-1)) = Throw RangeError.
Proof.
  split; reflexivity.
Qed.

(** ** Diagnostics *)

Lemma mapSeverity_tiers (s : jsstring) :
  (s = js "error" -> mapSeverity s = Lint.error)
  /\ (s = js "warning" -> mapSeverity s = Lint.warning)
  /\ (s <> js "error" -> s <> js "warning" -> mapSeverity s = Lint.info).
Proof.
  unfold mapSeverity. repeat split.
  - intros ->. reflexivity.
  - intros ->. reflexivity.
  - intros H1 H2. apply eqb_neq in H1, H2. rewrite H1, H2. reflexivity.
Qed.

Lemma mapLspDiagnosticsToCM_length (ds : list Lsp.DiagnosticItem) :
  List.length (mapLspDiagnosticsToCM ds) = List.length ds.
Proof. apply length_map. Qed.

(** On the first line the column of a position is its offset, so there the
    projected range is the translated one. *)
Lemma toEditorOffset_first_line (d : CM.Text) (c : Z) :
  0 <= c <= JS.length (CM.first_line d) ->
  toEditorOffset d (Lsp.mkPosition 0 c) = c.
Proof.
  intros H. unfold toEditorOffset, clamp, lastLine. cbn [Lsp.line Lsp.character].
  pose proof (lines_positive d).
  replace (Z.to_nat (Z.max 0 (Z.min (CM.lines d - 1) 0))) with O by lia.
  unfold lineStartOffset, lineText, CM.text_lines. simpl. lia.
Qed.

(** C2, the code at a diagnostic of the second line: in the document of the
    two lines [ab] and [cde], a diagnostic from line 1, character 0 to
    line 1, character 3 covers the offsets 3 to 6; the projector answers
    the range 0 to 3, the characters alone.  The severity is mapped as the
    claim says. *)
Theorem mapLspDiagnosticsToCM_drops_line :
  let d := CM.ofString (js "ab
cde") in
  let diag := Lsp.mkDiagnosticItem
                (Lsp.mkRange (Lsp.mkPosition 1 0) (Lsp.mkPosition 1 3))
                (js "error") (js "unused") in
  mapLspDiagnosticsToCM [diag]
  = [Lint.mkDiagnostic 0 3 Lint.error (js "unused")]
  /\ toEditorOffset d (Lsp.start (Lsp.range diag)) = 3
  /\ toEditorOffset d (Lsp.end_ (Lsp.range diag)) = 6.
Proof. repeat split. Qed.

(** C3, the code at a store whose current file is not the file of the
    editor: the component shows [h.ts], the store's current file is
    [k.ts] and holds one diagnostic.  The guard of the hover handler, which
    compares the component's file path, refuses; the linter, which compares
    the store's path with itself, answers the stored diagnostic. *)
Theorem lspLinter_other_file_not_empty :
  let view := mkEditorView (CM.ofString (js "let x = 1")) 0 (fun _ => None) in
  let diag := Lsp.mkDiagnosticItem
                (Lsp.mkRange (Lsp.mkPosition 0 0) (Lsp.mkPosition 0 3))
                (js "error") (js "unused") in
  let store := Lsp.mkState (Some (js "k.ts")) [diag] in
  let h := Some (js "h.ts") in
  strictNeq h (Lsp.currentFilePath store) = true
  /\ Hover.createLspHover (EnhancedHoverData := unit) h store view 0
     = Ok Hover.NoHover
  /\ lspLinter store view = [Lint.mkDiagnostic 0 3 Lint.error (js "unused")].
Proof. repeat split. Qed.

(** ** The guard on the current file *)

Lemma guard_same_path (store : Lsp.State) :
  negb (truthy (Lsp.currentFilePath store))
  || strictNeq (Lsp.currentFilePath store) (Lsp.currentFilePath store)
  = negb (truthy (Lsp.currentFilePath store)).
Proof. rewrite strictNeq_same. apply orb_false_r. Qed.

Lemma truthy_Some (v : option jsstring) :
  truthy v = true <-> exists f, v = Some f /\ f <> [].
Proof.
  destruct v as [[|c f]|]; simpl; split; try discriminate.
  - intros (f & E & H). inversion E; subst. contradiction.
  - intros _. eexists; split; [reflexivity | discriminate].
  - intros _. reflexivity.
  - intros (f & E & _). discriminate.
Qed.

Lemma lspLinter_cases (store : Lsp.State) (view : EditorView) :
  lspLinter store view
  = if truthy (Lsp.currentFilePath store)
    then mapLspDiagnosticsToCM (Lsp.diagnostics store)
    else [].
Proof.
  unfold lspLinter. rewrite guard_same_path.
  destruct (truthy (Lsp.currentFilePath store)); reflexivity.
Qed.

(** The provider at a position of the document: [null] without a current
    file, else a request for the current file of the store. *)
Lemma lspCompletion_cases (store : Lsp.State)
      (context : Autocomplete.CompletionContext) :
  0 <= Autocomplete.pos context
    <= CM.length (Autocomplete.state_doc context) ->
  (truthy (Lsp.currentFilePath store) = false
   /\ lspCompletion store context = Ok NoCompletions)
  \/ (exists f lspPosition callback,
         Lsp.currentFilePath store = Some f /\ f <> []
         /\ lspCompletion store context
            = Ok (Requested f lspPosition callback)
         /\ forall storeOnArrival completions,
             callback storeOnArrival completions
             = let* m := Autocomplete.matchBefore context searchIdent in
               Ok (Autocomplete.mkResult
                     match m with
                     | Some m =>
                         match CM.lineAt (Autocomplete.state_doc context)
                                         (Autocomplete.pos context) with
                         | Ok l => CM.from l + Autocomplete.match_from m
                         | Throw _ => 0
                         end
                     | None => Autocomplete.pos context
                     end
                     (map toCompletion completions))).
Proof.
  intros H. destruct (lineAt_in_range _ _ H) as (l & E & _).
  unfold lspCompletion. rewrite E. cbn [bind]. rewrite guard_same_path.
  destruct (truthy (Lsp.currentFilePath store)) eqn:T.
  - right. apply truthy_Some in T. destruct T as (f & Ef & Hf).
    rewrite Ef. cbn [negb]. do 3 eexists.
    split; [reflexivity|]. split; [exact Hf|]. split; [reflexivity|].
    intros s cs. reflexivity.
  - left. split; reflexivity.
Qed.

(** C8, as amended: at a position of the document the completion provider
    answers [null] exactly when the current file path of the store is
    [null] or empty, and else issues a request for that path; the linter
    answers the empty list when the path is [null] or empty and else the
    projection of the stored diagnostics, so its answer is empty exactly
    when the path is [null] or empty or no diagnostic is stored.  Neither
    reads anything of the editing surface but the position, so which file
    the surface shows has no part in it. *)
Theorem guard_fails_only_without_current_file
        (store : Lsp.State) (context : Autocomplete.CompletionContext)
        (view : EditorView) :
  0 <= Autocomplete.pos context
    <= CM.length (Autocomplete.state_doc context) ->
  (lspCompletion store context = Ok NoCompletions
   <-> truthy (Lsp.currentFilePath store) = false)
  /\ (truthy (Lsp.currentFilePath store) = false ->
      lspLinter store view = [])
  /\ (truthy (Lsp.currentFilePath store) = true ->
      lspLinter store view = mapLspDiagnosticsToCM (Lsp.diagnostics store)
      /\ exists f lspPosition callback,
          Lsp.currentFilePath store = Some f
          /\ lspCompletion store context
             = Ok (Requested f lspPosition callback))
  /\ (lspLinter store view = []
      <-> truthy (Lsp.currentFilePath store) = false
          \/ Lsp.diagnostics store = []).
Proof.
  intros H. rewrite lspLinter_cases.
  destruct (lspCompletion_cases store context H)
    as [[T E] | (f & p & cb & Ef & Hf & E & _)].
  - rewrite T, E. repeat split; auto; discriminate.
  - assert (T : truthy (Lsp.currentFilePath store) = true).
    { apply truthy_Some. exists f. auto. }
    rewrite T, E. split; [split; discriminate|].
    split; [discriminate|].
    split; [intros _; split; [reflexivity | eauto]|].
    split.
    + intros M. right. apply (f_equal (@List.length _)) in M.
      rewrite mapLspDiagnosticsToCM_length in M.
      destruct (Lsp.diagnostics store); [reflexivity | discriminate].
    + intros [D | D]; [discriminate | rewrite D; reflexivity].
Qed.

Lemma guard_fails_only_without_current_file_witness :
  let store := Lsp.mkState (Some (js "k.ts")) [] in
  let context := Autocomplete.mkContext (CM.ofString (js "let x")) 5 in
  let view := mkEditorView (CM.ofString (js "let x")) 5 (fun _ => None) in
  lspLinter store view = []
  <-> truthy (Lsp.currentFilePath store) = false
      \/ Lsp.diagnostics store = [].
Proof.
  intros store context view.
  apply (guard_fails_only_without_current_file store context view).
  vm_compute. split; discriminate.
Defined.

(** C8, the claim as stated fails for the linter: with a current file and
    no stored diagnostic its answer is the empty list although the path is
    neither [null] nor empty. *)
Lemma lspLinter_empty_with_current_file :
  let store := Lsp.mkState (Some (js "k.ts")) [] in
  let view := mkEditorView (CM.ofString (js "let x")) 5 (fun _ => None) in
  truthy (Lsp.currentFilePath store) = true
  /\ lspLinter store view = [].
Proof. split; reflexivity. Qed.

(** ** Completion *)

Lemma searchIdent_bounds (str : jsstring) :
  0 <= searchIdent str <= JS.length str.
Proof.
  induction str as [|c str IH]; [simpl; unfold JS.length; simpl; lia|].
  cbn [searchIdent]. unfold JS.length in *. cbn [List.length].
  destruct (forallb identClass (c :: str)); lia.
Qed.

Lemma matchBefore_searchIdent (context : Autocomplete.CompletionContext) :
  0 <= Autocomplete.pos context
    <= CM.length (Autocomplete.state_doc context) ->
  exists m, Autocomplete.matchBefore context searchIdent = Ok (Some m).
Proof.
  intros H. destruct (lineAt_in_range _ _ H) as (l & E & _).
  unfold Autocomplete.matchBefore. rewrite E. cbn [bind].
  match goal with
  | |- context [searchIdent ?s] =>
      pose proof (searchIdent_bounds s) as B;
      replace (searchIdent s <? 0) with false
        by (symmetry; apply Z.ltb_ge; lia)
  end.
  eexists; reflexivity.
Qed.

(** C1, as amended: the provider looks at the current file path of the
    store when the completion is triggered, and issues no request when it
    is [null] or empty.  Once a request is issued, the completions the
    server answers with are all handed to the editing surface, in their
    order, whatever the store holds when the answer arrives: nothing is
    compared on arrival. *)
Theorem lspCompletion_applies_every_response
        (store : Lsp.State) (context : Autocomplete.CompletionContext) :
  0 <= Autocomplete.pos context
    <= CM.length (Autocomplete.state_doc context) ->
  (truthy (Lsp.currentFilePath store) = false ->
   lspCompletion store context = Ok NoCompletions)
  /\ (forall f,
        Lsp.currentFilePath store = Some f -> f <> [] ->
        exists lspPosition callback,
          lspCompletion store context = Ok (Requested f lspPosition callback)
          /\ forall storeOnArrival completions,
              exists from,
                awaitCompletion (Requested f lspPosition callback)
                                storeOnArrival completions
                = Ok (Some (Autocomplete.mkResult from
                              (map toCompletion completions)))).
Proof.
  intros H.
  destruct (lspCompletion_cases store context H)
    as [[T E] | (f' & p & cb & Ef' & Hf' & E & Hcb)].
  - split; [intros _; exact E|].
    intros f Ef Hf. rewrite Ef in T.
    destruct f; [contradiction | discriminate].
  - split.
    + intros T. rewrite Ef' in T.
      destruct f'; [contradiction | discriminate].
    + intros f Ef Hf. assert (f' = f) by congruence. subst f'.
      exists p, cb. split; [exact E|].
      intros s cs. unfold awaitCompletion. rewrite Hcb.
      destruct (matchBefore_searchIdent context H) as [m Em]. rewrite Em.
      cbn [bind]. eexists. reflexivity.
Qed.

Lemma lspCompletion_applies_every_response_witness :
  let store := Lsp.mkState (Some (js "a.ts")) [] in
  let context := Autocomplete.mkContext (CM.ofString (js "fo")) 2 in
  0 <= Autocomplete.pos context
    <= CM.length (Autocomplete.state_doc context)
  /\ exists lspPosition callback,
      lspCompletion store context
      = Ok (Requested (js "a.ts") lspPosition callback).
Proof.
  intros store context.
  assert (H : 0 <= Autocomplete.pos context
              <= CM.length (Autocomplete.state_doc context)).
  { vm_compute. split; discriminate. }
  split; [exact H|].
  destruct (proj2 (lspCompletion_applies_every_response store context H)
              (js "a.ts"))
    as (p & cb & E & _).
  - reflexivity.
  - discriminate.
  - exists p, cb. exact E.
Defined.

(** C1, the claim as stated fails: a completion is requested while [a.ts]
    is the current file; when the answer arrives the current file is
    [b.ts]; the item of the answer is handed to the editing surface all the
    same. *)
Lemma lspCompletion_stale_response_applied :
  let context := Autocomplete.mkContext (CM.ofString (js "fo")) 2 in
  let storeAtRequest := Lsp.mkState (Some (js "a.ts")) [] in
  let storeOnArrival := Lsp.mkState (Some (js "b.ts")) [] in
  let item := Lsp.mkCompletionItem (js "foo") (js "Function") None None in
  (let* source := lspCompletion storeAtRequest context in
   Ok (requestedFile source)) = Ok (Some (js "a.ts"))
  /\ strictNeq (Some (js "a.ts")) (Lsp.currentFilePath storeOnArrival) = true
  /\ (let* source := lspCompletion storeAtRequest context in
      awaitCompletion source storeOnArrival [item])
     = Ok (Some (Autocomplete.mkResult 0
                   [Autocomplete.mkCompletion (js "foo") (js "function")
                                              None None (js "foo")])).
Proof. repeat split. Qed.

(** ** Hover *)

(** C7, as amended: a hover at a position of the document, in a component
    whose file is the current file of the store, requests the hover
    information for that file.  When the answer is [null] or has no
    contents, nothing is shown.  When it has contents and the offset has
    screen coordinates when the answer arrives, the display callback gets
    the contents and the point 20 pixels below the top of those
    coordinates, at their left.  When the offset has no screen coordinates,
    nothing is shown. *)
Theorem createLspHover_shows_content
        (EnhancedHoverData : Type) (f : jsstring) (store : Lsp.State)
        (view : EditorView) (pos : Z) :
  f <> [] -> Lsp.currentFilePath store = Some f ->
  0 <= pos <= CM.length (doc view) ->
  exists lspPosition callback,
    Hover.createLspHover (EnhancedHoverData := EnhancedHoverData)
                         (Some f) store view pos
    = Ok (Hover.HoverRequested f lspPosition callback)
    /\ forall storeOnArrival viewOnArrival,
        callback storeOnArrival viewOnArrival None = None
        /\ callback storeOnArrival viewOnArrival
                    (Some (Hover.mkHoverInfo None)) = None
        /\ forall contents,
            callback storeOnArrival viewOnArrival
                     (Some (Hover.mkHoverInfo (Some contents)))
            = match coordsAtPos viewOnArrival pos with
              | Some posCoords =>
                  Some (Hover.mkShowHover contents
                          (Hover.mkScreenPos (Rect.top posCoords + 20)%Q
                                             (Rect.left posCoords)))
              | None => None
              end.
Proof.
  intros Hf Ef Hpos.
  destruct (lineAt_in_range _ _ Hpos) as (l & El & _).
  unfold Hover.createLspHover. rewrite Ef.
  replace (truthy (Some f)) with true by (destruct f; [contradiction|reflexivity]).
  rewrite strictNeq_same. cbn [negb orb]. rewrite El. cbn [bind].
  do 2 eexists. split; [reflexivity|].
  intros s v. repeat split.
Qed.

Lemma createLspHover_shows_content_witness :
  let store := Lsp.mkState (Some (js "a.ts")) [] in
  let view := mkEditorView (CM.ofString (js "let x = 1")) 0
                (fun p => Some (Rect.mk (100 # 1) (inject_Z (8 * p))
                                        (116 # 1) (inject_Z (8 * p + 8)))) in
  exists lspPosition callback,
    Hover.createLspHover (Some (js "a.ts")) store view 4
    = Ok (Hover.HoverRequested (js "a.ts") lspPosition callback)
    /\ callback store view (Some (Hover.mkHoverInfo (Some (js "x: number"))))
       = Some (Hover.mkShowHover (js "x: number")
                 (Hover.mkScreenPos ((100 # 1) + 20)%Q (inject_Z 32))).
Proof.
  intros store view.
  destruct (createLspHover_shows_content jsstring (js "a.ts") store view 4)
    as (p & cb & E & H).
  - discriminate.
  - reflexivity.
  - vm_compute. split; discriminate.
  - exists p, cb. split; [exact E|].
    destruct (H store view) as (_ & _ & Hc). rewrite Hc. reflexivity.
Defined.

(** C7, the claim as stated fails: the answer has contents, but the offset
    has no screen coordinates when it arrives; the display callback is not
    called. *)
Lemma createLspHover_no_coordinates :
  let store := Lsp.mkState (Some (js "a.ts")) [] in
  let view := mkEditorView (CM.ofString (js "let x = 1")) 0 (fun _ => None) in
  let hoverInfo := Some (Hover.mkHoverInfo (Some (js "x: number"))) in
  (let* source := Hover.createLspHover (Some (js "a.ts")) store view 4 in
   Ok (Hover.awaitHover source store view hoverInfo))
  = Ok None
  /\ exists lspPosition callback,
      Hover.createLspHover (EnhancedHoverData := jsstring)
                           (Some (js "a.ts")) store view 4
      = Ok (Hover.HoverRequested (js "a.ts") lspPosition callback).
Proof.
  split; [reflexivity|]. do 2 eexists. reflexivity.
Qed.

(** ** The replacement range of a completion *)

Lemma takeWhile_all {A : Type} (f : A -> bool) (l l' : list A) :
  forallb f l = true -> takeWhile f (l ++ l') = l ++ takeWhile f l'.
Proof.
  induction l as [|x l IH]; simpl; [reflexivity|].
  intros H. apply andb_true_iff in H. destruct H as [Hx Hl].
  rewrite Hx, IH by exact Hl. reflexivity.
Qed.

Lemma takeWhile_whole {A : Type} (f : A -> bool) (l : list A) :
  forallb f l = true -> takeWhile f l = l.
Proof.
  intros H. rewrite <- (app_nil_r l) at 1.
  rewrite takeWhile_all by exact H. apply app_nil_r.
Qed.

Lemma takeWhile_stops {A : Type} (f : A -> bool) (l l' : list A) :
  forallb f l = false -> takeWhile f (l ++ l') = takeWhile f l.
Proof.
  induction l as [|x l IH]; simpl; [discriminate|].
  destruct (f x); simpl; [|reflexivity].
  intros H. rewrite IH by exact H. reflexivity.
Qed.

Lemma takeWhile_firstn_length {A : Type} (f : A -> bool) (l : list A) :
  forall k,
    List.length (takeWhile f (firstn k l))
    = Nat.min k (List.length (takeWhile f l)).
Proof.
  induction l as [|x l IH]; intros [|k]; simpl; try reflexivity.
  destruct (f x); simpl; [rewrite IH|]; reflexivity.
Qed.

Lemma takeWhile_length_le {A : Type} (f : A -> bool) (l : list A) :
  (List.length (takeWhile f l) <= List.length l)%nat.
Proof.
  induction l as [|x l IH]; simpl; [lia|]. destruct (f x); simpl; lia.
Qed.

Lemma forallb_rev {A : Type} (f : A -> bool) (l : list A) :
  forallb f (rev l) = forallb f l.
Proof.
  induction l as [|x l IH]; simpl; [reflexivity|].
  rewrite forallb_app, IH. simpl. rewrite andb_true_r. apply andb_comm.
Qed.

(** The search of the anchored expression finds the start of the longest
    run of class characters at the end of the string. *)
Lemma searchIdent_run (str : jsstring) :
  searchIdent str = JS.length str - identRunLength str.
Proof.
  unfold identRunLength, JS.length.
  induction str as [|c str IH]; [reflexivity|].
  cbn [searchIdent]. destruct (forallb identClass (c :: str)) eqn:F.
  - rewrite <- forallb_rev in F.
    rewrite takeWhile_whole by exact F. rewrite length_rev. lia.
  - cbn [rev List.length]. cbn [forallb] in F.
    destruct (forallb identClass str) eqn:F2.
    + rewrite andb_true_r in F. rewrite <- forallb_rev in F2.
      rewrite takeWhile_all by exact F2. simpl takeWhile. rewrite F.
      rewrite app_nil_r.
      rewrite takeWhile_whole in IH by exact F2.
      rewrite length_rev in *. lia.
    + rewrite <- forallb_rev in F2.
      rewrite takeWhile_stops by exact F2. lia.
Qed.

Lemma slice_window (text : jsstring) (a c : Z) :
  0 <= a <= c -> c <= JS.length text ->
  slice text a c = skipn (Z.to_nat a) (firstn (Z.to_nat c) text).
Proof.
  intros H1 H2. unfold slice, sliceIndex.
  replace (a <? 0) with false by (symmetry; apply Z.ltb_ge; lia).
  replace (c <? 0) with false by (symmetry; apply Z.ltb_ge; lia).
  rewrite !Z.min_l by lia.
  rewrite skipn_firstn_comm, Z2Nat.inj_sub by lia. reflexivity.
Qed.

Lemma identRunLength_window (text : jsstring) (a c : Z) :
  0 <= a <= c -> c <= JS.length text ->
  identRunLength (skipn (Z.to_nat a) (firstn (Z.to_nat c) text))
  = Z.min (c - a) (identRunLength (firstn (Z.to_nat c) text)).
Proof.
  intros H1 H2. unfold identRunLength, JS.length in *.
  set (l := firstn (Z.to_nat c) text).
  assert (Hl : List.length l = Z.to_nat c).
  { subst l. rewrite length_firstn. lia. }
  replace (rev (skipn (Z.to_nat a) l))
    with (firstn (Z.to_nat c - Z.to_nat a) (rev l)).
  2:{ rewrite firstn_rev, Hl. do 2 f_equal. lia. }
  rewrite takeWhile_firstn_length. lia.
Qed.

Lemma identRunStart_bounds (text : jsstring) (c : Z) :
  0 <= c <= JS.length text -> 0 <= identRunStart text c <= c.
Proof.
  intros H. unfold identRunStart, identRunLength, JS.length in *.
  pose proof (takeWhile_length_le identClass
                (rev (firstn (Z.to_nat c) text))) as L.
  rewrite length_rev, length_firstn in L. lia.
Qed.

(** What [matchBefore] reports for the expression of the source on a line
    that starts at [lineFrom], for the column [c] of the line: the later of
    the start of the run and the start of the window of 250 code units, as
    an offset of the document. *)
Lemma matchBefore_from (text : jsstring) (lineFrom c : Z) :
  0 <= c <= JS.length text ->
  let pos := lineFrom + c in
  let start := Z.max lineFrom (pos - 250) in
  start + searchIdent (slice text (start - lineFrom) (pos - lineFrom))
  = Z.max (lineFrom + identRunStart text c) (pos - 250).
Proof.
  intros H pos start.
  pose proof (identRunStart_bounds text c H) as B.
  replace (pos - lineFrom) with c by (subst pos; lia).
  set (a := start - lineFrom).
  assert (Ha : 0 <= a <= c) by (subst a start pos; lia).
  rewrite slice_window by lia.
  rewrite searchIdent_run, identRunLength_window by lia.
  unfold JS.length at 1. rewrite length_skipn, length_firstn.
  unfold identRunStart in *. unfold JS.length in H.
  subst a start pos. lia.
Qed.

(** C6, as amended: for a completion triggered at offset [p] on the first
    line of the document, with a current file in the store, the answer
    replaces from [from], where [from] is the start of the longest run of
    word characters, digits, underscores, hyphens and dots that ends at
    [p], or [p - 250] when the run starts earlier than that; no end is
    given, so the range ends at [p].  The options are the completions of the
    server in their order. *)
Theorem lspCompletion_replacement_range
        (store : Lsp.State) (d : CM.Text) (p : Z) (f : jsstring) :
  Lsp.currentFilePath store = Some f -> f <> [] ->
  0 <= p <= JS.length (CM.first_line d) ->
  exists lspPosition callback,
    lspCompletion store (Autocomplete.mkContext d p)
    = Ok (Requested f lspPosition callback)
    /\ forall storeOnArrival completions,
        callback storeOnArrival completions
        = Ok (Autocomplete.mkResult
                (Z.max (identRunStart (CM.first_line d) p) (p - 250))
                (map toCompletion completions)).
Proof.
  intros Ef Hf Hp.
  pose proof (lineAt_first_line d p Hp) as El.
  assert (Hpos : 0 <= Autocomplete.pos (Autocomplete.mkContext d p)
                 <= CM.length (Autocomplete.state_doc
                                 (Autocomplete.mkContext d p))).
  { cbn [Autocomplete.pos Autocomplete.state_doc].
    unfold CM.length, CM.text_lines. cbn [CM.joinedLength1].
    pose proof (joinedLength1_nonneg (CM.more_lines d)). lia. }
  destruct (lspCompletion_cases store _ Hpos)
    as [[T _] | (f' & lp & cb & Ef' & _ & E & Hcb)].
  - rewrite Ef in T. destruct f; [contradiction | discriminate].
  - assert (f' = f) by congruence. subst f'.
    exists lp, cb. split; [exact E|].
    intros s cs. rewrite Hcb.
    unfold Autocomplete.matchBefore.
    cbn [Autocomplete.pos Autocomplete.state_doc].
    rewrite El. cbn [bind CM.from CM.text].
    match goal with
    | |- context [searchIdent ?str] =>
        pose proof (searchIdent_bounds str) as B;
        replace (searchIdent str <? 0) with false
          by (symmetry; apply Z.ltb_ge; lia)
    end.
    cbn [Autocomplete.match_from].
    pose proof (matchBefore_from (CM.first_line d) 0 p Hp) as M.
    cbn zeta in M. rewrite !Z.add_0_l in M. rewrite !Z.add_0_l.
    rewrite M. reflexivity.
Qed.

Lemma lspCompletion_replacement_range_witness :
  let store := Lsp.mkState (Some (js "a.ts")) [] in
  let d := CM.ofString (js "let x = foo.") in
  exists lspPosition callback,
    lspCompletion store (Autocomplete.mkContext d 12)
    = Ok (Requested (js "a.ts") lspPosition callback)
    /\ forall storeOnArrival,
        callback storeOnArrival [] = Ok (Autocomplete.mkResult 8 []).
Proof.
  intros store d.
  destruct (lspCompletion_replacement_range store d 12 (js "a.ts"))
    as (lp & cb & E & H).
  - reflexivity.
  - discriminate.
  - vm_compute. split; discriminate.
  - exists lp, cb. split; [exact E|]. intros s. rewrite H. reflexivity.
Defined.

(** C6, the claim as stated fails.  On a first line of 300 letters, with
    the cursor at its end, the run starts at 0 and the answer is 50: no
    more than 250 code units are looked at.  On the second line of the
    document of the lines [a] and [foo], with the cursor at its end
    (offset 5), the run starts at offset 2 and the answer is 4: the start
    of the line is added to a start that is an offset of the document
    already. *)
Lemma lspCompletion_replacement_range_differs :
  let store := Lsp.mkState (Some (js "a.ts")) [] in
  let from d p :=
    let* source := lspCompletion store (Autocomplete.mkContext d p) in
    let* r := awaitCompletion source store [] in
    Ok (option_map Autocomplete.from r) in
  (from (CM.mkText (repeat "a"%char 300) []) 300 = Ok (Some 50)
   /\ identRunStart (repeat "a"%char 300) 300 = 0)
  /\ (from (CM.ofString (js "a
foo")) 5 = Ok (Some 4)
      /\ toEditorOffset (CM.ofString (js "a
foo")) (Lsp.mkPosition 1 (identRunStart (js "foo") 3)) = 2).
Proof. vm_compute. repeat split. Qed.

(** * Further properties *)

(** ** Lines and offsets *)

(** [doc.lineAt] answers the line whose span holds the position. *)
Lemma lineInner_atPos_index (ls : list jsstring) :
  forall pos line offset,
    offset <= pos <= offset + CM.joinedLength1 ls - 1 ->
    exists k,
      (k < List.length ls)%nat
      /\ CM.lineInner ls pos false line offset
         = Some (CM.mkLine
                   (offset + CM.joinedLength1 (firstn k ls))
                   (offset + CM.joinedLength1 (firstn k ls)
                    + JS.length (nth k ls []))
                   (line + Z.of_nat k)
                   (nth k ls []))
      /\ offset + CM.joinedLength1 (firstn k ls) <= pos
         <= offset + CM.joinedLength1 (firstn k ls) + JS.length (nth k ls []).
Proof.
  induction ls as [|s ls IH]; intros pos line offset H.
  - simpl in H. lia.
  - cbn [CM.lineInner]. cbn [CM.joinedLength1] in H.
    destruct (offset + JS.length s >=? pos) eqn:E.
    + apply Z.geb_le in E. exists O. simpl.
      rewrite !Z.add_0_r. repeat split; lia.
    + apply geb_false_iff in E.
      destruct (IH pos (line + 1) (offset + JS.length s + 1) ltac:(lia))
        as (k & Hk & El & Hb).
      exists (S k). cbn [List.length firstn nth CM.joinedLength1].
      split; [lia|]. rewrite El. split; [f_equal; f_equal; lia | lia].
Qed.

(** Conversely, a column of the line with index [k] is on that line. *)
Lemma lineInner_atPos_of_index (ls : list jsstring) :
  forall k c line offset,
    (k < List.length ls)%nat -> 0 <= c <= JS.length (nth k ls []) ->
    CM.lineInner ls (offset + CM.joinedLength1 (firstn k ls) + c)
                 false line offset
    = Some (CM.mkLine
              (offset + CM.joinedLength1 (firstn k ls))
              (offset + CM.joinedLength1 (firstn k ls)
               + JS.length (nth k ls []))
              (line + Z.of_nat k)
              (nth k ls [])).
Proof.
  induction ls as [|s ls IH]; intros k c line offset Hk Hc;
    simpl in Hk; [lia|].
  destruct k as [|k].
  - cbn [CM.lineInner firstn nth CM.joinedLength1] in *.
    replace (offset + JS.length s >=? offset + 0 + c) with true
      by (symmetry; apply Z.geb_le; lia).
    rewrite !Z.add_0_r. reflexivity.
  - cbn [CM.lineInner firstn nth CM.joinedLength1] in *.
    pose proof (joinedLength1_nonneg (firstn k ls)).
    replace (offset + JS.length s
             >=? offset + (JS.length s + 1 + CM.joinedLength1 (firstn k ls))
                 + c) with false
      by (symmetry; apply geb_false_iff; lia).
    replace (offset + (JS.length s + 1 + CM.joinedLength1 (firstn k ls)) + c)
      with (offset + JS.length s + 1 + CM.joinedLength1 (firstn k ls) + c)
      by lia.
    rewrite IH by (lia || assumption). f_equal. f_equal; lia.
Qed.

Lemma lineAt_index (d : CM.Text) (pos : Z) :
  0 <= pos <= CM.length d ->
  exists k,
    (k < List.length (CM.text_lines d))%nat
    /\ CM.lineAt d pos
       = Ok (CM.mkLine (lineStartOffset d k)
                       (lineStartOffset d k + JS.length (lineText d k))
                       (1 + Z.of_nat k) (lineText d k))
    /\ lineStartOffset d k <= pos
       <= lineStartOffset d k + JS.length (lineText d k).
Proof.
  intros H. unfold CM.lineAt.
  replace ((pos <? 0) || (pos >? CM.length d)) with false.
  2:{ symmetry. apply orb_false_iff. rewrite Z.gtb_ltb.
      split; apply Z.ltb_ge; lia. }
  unfold CM.length in H.
  destruct (lineInner_atPos_index (CM.text_lines d) pos 1 0 ltac:(lia))
    as (k & Hk & E & Hb).
  exists k. rewrite E. unfold lineStartOffset, lineText.
  rewrite !Z.add_0_l in *. repeat split; (assumption || lia).
Qed.

Lemma lineAt_of_index (d : CM.Text) (k : nat) (c : Z) :
  (k < List.length (CM.text_lines d))%nat ->
  0 <= c <= JS.length (lineText d k) ->
  CM.lineAt d (lineStartOffset d k + c)
  = Ok (CM.mkLine (lineStartOffset d k)
                  (lineStartOffset d k + JS.length (lineText d k))
                  (1 + Z.of_nat k) (lineText d k)).
Proof.
  intros Hk Hc. pose proof (offset_in_document d k c Hk Hc) as Hpos.
  unfold CM.lineAt.
  replace ((lineStartOffset d k + c <? 0)
           || (lineStartOffset d k + c >? CM.length d)) with false.
  2:{ symmetry. apply orb_false_iff. rewrite Z.gtb_ltb.
      split; apply Z.ltb_ge; lia. }
  pose proof (lineInner_atPos_of_index (CM.text_lines d) k c 1 0 Hk Hc) as E.
  rewrite !Z.add_0_l in E. unfold lineStartOffset, lineText in *.
  rewrite E. reflexivity.
Qed.

(** The caret after a navigation to a position that is not negative. *)
Lemma handleNavigation_result (view : EditorView) (L C : Z) :
  0 <= L -> 0 <= C ->
  let n := Z.to_nat (Z.min L (lastLine (doc view))) in
  let c := Z.min C (JS.length (lineText (doc view) n)) in
  (n < List.length (CM.text_lines (doc view)))%nat
  /\ 0 <= c <= JS.length (lineText (doc view) n)
  /\ handleNavigation (Some view) (Lsp.mkPosition L C)
     = Ok (Some (mkEditorView (doc view)
                              (lineStartOffset (doc view) n + c)
                              (coordsAtPos view))).
Proof.
  intros HL HC n c.
  pose proof (lines_positive (doc view)) as Hlines.
  assert (Hn : (n < List.length (CM.text_lines (doc view)))%nat).
  { subst n. unfold lastLine, CM.lines in *. lia. }
  assert (Hc : 0 <= c <= JS.length (lineText (doc view) n)).
  { subst c. pose proof (length_nonneg (lineText (doc view) n)). lia. }
  split; [exact Hn|]. split; [exact Hc|].
  pose proof (offset_in_document (doc view) n c Hn Hc) as Hpos.
  unfold handleNavigation, navigationTransaction.
  cbn [Lsp.line Lsp.character]. cbn zeta.
  assert (Et : Z.to_nat (Z.min (CM.lines (doc view)) (L + 1) - 1) = n).
  { subst n. unfold lastLine. f_equal. lia. }
  rewrite line_in_range by lia. rewrite Et.
  unfold CM.line_length. cbn [bind CM.from CM.to].
  replace (lineStartOffset (doc view) n + JS.length (lineText (doc view) n)
           - lineStartOffset (doc view) n)
    with (JS.length (lineText (doc view) n)) by lia.
  fold c. unfold dispatch. cbn [anchor selection_head].
  replace ((Z.min (lineStartOffset (doc view) n + c)
                  (lineStartOffset (doc view) n + c) <? 0)
           || (Z.max (lineStartOffset (doc view) n + c)
                     (lineStartOffset (doc view) n + c)
               >? CM.length (doc view))) with false; [reflexivity|].
  symmetry. apply orb_false_iff. rewrite Z.gtb_ltb.
  split; apply Z.ltb_ge; lia.
Qed.

(** ** The cursor position *)

(** X1: for a caret inside the document [getCursorPosition] answers a line
    between 0 and the last line and a character between 0 and the length
    of that line; for a caret outside the document it throws. *)
Theorem getCursorPosition_bounds (view : EditorView) :
  (0 <= head view <= CM.length (doc view) ->
   exists p,
     getCursorPosition view = Ok p
     /\ 0 <= Lsp.line p <= lastLine (doc view)
     /\ 0 <= Lsp.character p
        <= JS.length (lineText (doc view) (Z.to_nat (Lsp.line p))))
  /\ (head view < 0 \/ CM.length (doc view) < head view ->
      getCursorPosition view = Throw RangeError).
Proof.
  split.
  - intros H. destruct (lineAt_index _ _ H) as (k & Hk & E & Hb).
    unfold getCursorPosition. rewrite E. cbn [bind CM.number CM.from].
    eexists. split; [reflexivity|]. cbn [Lsp.line Lsp.character].
    replace (1 + Z.of_nat k - 1) with (Z.of_nat k) by lia.
    rewrite Nat2Z.id. unfold lastLine, CM.lines. lia.
  - intros H. unfold getCursorPosition.
    rewrite lineAt_out_of_range by exact H. reflexivity.
Qed.

Lemma getCursorPosition_bounds_witness :
  let view := mkEditorView (CM.ofString (js "ab
cde")) 4 (fun _ => None) in
  0 <= head view <= CM.length (doc view)
  /\ getCursorPosition view = Ok (Lsp.mkPosition 1 1).
Proof.
  intros view.
  assert (H : 0 <= head view <= CM.length (doc view)).
  { vm_compute. split; discriminate. }
  split; [exact H|].
  destruct (proj1 (getCursorPosition_bounds view) H) as (p & E & _).
  rewrite E. vm_compute in E. congruence.
Defined.

(** X2: navigating to the position of the caret leaves the view as it is:
    for a caret inside the document, the position [getCursorPosition]
    answers is sent back to the same offset by [handleNavigation]. *)
Theorem handleNavigation_getCursorPosition (view : EditorView) :
  0 <= head view <= CM.length (doc view) ->
  exists p,
    getCursorPosition view = Ok p
    /\ handleNavigation (Some view) p = Ok (Some view).
Proof.
  intros H. destruct (lineAt_index _ _ H) as (k & Hk & E & Hb).
  unfold getCursorPosition. rewrite E. cbn [bind CM.number CM.from].
  eexists. split; [reflexivity|].
  set (c := head view - lineStartOffset (doc view) k).
  replace (1 + Z.of_nat k - 1) with (Z.of_nat k) by lia.
  destruct (handleNavigation_result view (Z.of_nat k) c ltac:(lia) ltac:(lia))
    as (_ & _ & En).
  rewrite En. unfold lastLine, CM.lines.
  replace (Z.to_nat (Z.min (Z.of_nat k)
                           (Z.of_nat (List.length (CM.text_lines (doc view)))
                            - 1))) with k by lia.
  replace (Z.min c (JS.length (lineText (doc view) k))) with c by lia.
  replace (lineStartOffset (doc view) k + c) with (head view) by lia.
  destruct view; reflexivity.
Qed.

Lemma handleNavigation_getCursorPosition_witness :
  let view := mkEditorView (CM.ofString (js "ab
cde")) 4 (fun _ => None) in
  0 <= head view <= CM.length (doc view)
  /\ exists p,
      getCursorPosition view = Ok p
      /\ handleNavigation (Some view) p = Ok (Some view).
Proof.
  intros view.
  assert (H : 0 <= head view <= CM.length (doc view)).
  { vm_compute. split; discriminate. }
  split; [exact H | exact (handleNavigation_getCursorPosition view H)].
Defined.

(** X3: after a navigation to a position that is not negative, the cursor
    position of the view is that position with the line cut to the last
    line and the character cut to the length of the line. *)
Theorem getCursorPosition_handleNavigation (view : EditorView) (L C : Z) :
  0 <= L -> 0 <= C ->
  exists view',
    handleNavigation (Some view) (Lsp.mkPosition L C) = Ok (Some view')
    /\ getCursorPosition view'
       = Ok (Lsp.mkPosition
               (Z.min L (lastLine (doc view)))
               (Z.min C (JS.length
                           (lineText (doc view)
                              (Z.to_nat (Z.min L (lastLine (doc view)))))))).
Proof.
  intros HL HC.
  destruct (handleNavigation_result view L C HL HC) as (Hn & Hc & E).
  eexists. split; [exact E|].
  unfold getCursorPosition. cbn [head doc].
  rewrite lineAt_of_index by assumption. cbn [bind CM.number CM.from].
  pose proof (lines_positive (doc view)). unfold lastLine in *.
  f_equal. f_equal; lia.
Qed.

Lemma getCursorPosition_handleNavigation_witness :
  let view := mkEditorView (CM.ofString (js "ab
cde
f")) 0 (fun _ => None) in
  exists view',
    handleNavigation (Some view) (Lsp.mkPosition 1000 5) = Ok (Some view')
    /\ getCursorPosition view' = Ok (Lsp.mkPosition 2 1).
Proof.
  intros view.
  destruct (getCursorPosition_handleNavigation view 1000 5
              ltac:(lia) ltac:(lia)) as (view' & E & G).
  exists view'. split; [exact E | rewrite G; reflexivity].
Defined.

(** ** More on navigation *)

(** X4: a navigation that succeeded changes nothing when the same event is
    handled again. *)
Theorem handleNavigation_idempotent
        (view view' : EditorView) (detail : Lsp.Position) :
  handleNavigation (Some view) detail = Ok (Some view') ->
  handleNavigation (Some view') detail = Ok (Some view').
Proof.
  unfold handleNavigation. cbn zeta. intros H.
  destruct (navigationTransaction (doc view) detail) as [tr|e] eqn:Etr;
    cbn [bind] in H; [|discriminate].
  unfold dispatch in H.
  match type of H with
  | context [if ?b then _ else _] => destruct b eqn:G
  end; cbn [bind] in H; [discriminate|].
  inversion H; subst view'; clear H. cbn [doc].
  rewrite Etr. cbn [bind]. unfold dispatch.
  cbn [doc coordsAtPos]. rewrite G. reflexivity.
Qed.

Lemma handleNavigation_idempotent_witness :
  let view := mkEditorView (CM.ofString (js "ab
cde")) 0 (fun _ => None) in
  let view' := mkEditorView (CM.ofString (js "ab
cde")) 5 (coordsAtPos view) in
  handleNavigation (Some view') (Lsp.mkPosition 1 2) = Ok (Some view').
Proof.
  intros view view'.
  apply (handleNavigation_idempotent view view' (Lsp.mkPosition 1 2)).
  reflexivity.
Defined.

Lemma joinedLength1_last (ls : list jsstring) :
  ls <> [] ->
  CM.joinedLength1 (firstn (List.length ls - 1) ls)
  + JS.length (nth (List.length ls - 1) ls []) + 1
  = CM.joinedLength1 ls.
Proof.
  induction ls as [|l ls IH]; [congruence|]. intros _.
  destruct ls as [|l' ls'].
  - simpl. lia.
  - specialize (IH ltac:(discriminate)).
    replace (List.length (l :: l' :: ls') - 1)%nat
      with (S (List.length (l' :: ls') - 1)) by (simpl; lia).
    cbn [firstn nth CM.joinedLength1] in *. lia.
Qed.

(** X5: a navigation to a line at or behind the last line, with a
    character at or behind the end of the last line, puts the caret at the
    end of the document. *)
Theorem handleNavigation_end_of_document (view : EditorView) (L C : Z) :
  lastLine (doc view) <= L ->
  JS.length (lineText (doc view) (Z.to_nat (lastLine (doc view)))) <= C ->
  exists view',
    handleNavigation (Some view) (Lsp.mkPosition L C) = Ok (Some view')
    /\ head view' = CM.length (doc view).
Proof.
  intros HL HC.
  pose proof (lines_positive (doc view)) as Hlines.
  pose proof (length_nonneg
                (lineText (doc view) (Z.to_nat (lastLine (doc view))))) as Hlen.
  assert (H0 : 0 <= lastLine (doc view)) by (unfold lastLine; lia).
  destruct (handleNavigation_result view L C ltac:(lia) ltac:(lia))
    as (_ & _ & E).
  eexists. split; [exact E|]. cbn [head].
  rewrite (Z.min_r L) by lia. rewrite Z.min_r by lia.
  unfold lineStartOffset, lineText, CM.length, lastLine, CM.lines.
  pose proof (joinedLength1_last (CM.text_lines (doc view))
                ltac:(unfold CM.text_lines; discriminate)) as J.
  replace (Z.to_nat (Z.of_nat (List.length (CM.text_lines (doc view))) - 1))
    with (List.length (CM.text_lines (doc view)) - 1)%nat by lia.
  lia.
Qed.

Lemma handleNavigation_end_of_document_witness :
  let view := mkEditorView (CM.ofString (js "ab
cde
f")) 0 (fun _ => None) in
  exists view',
    handleNavigation (Some view) (Lsp.mkPosition 1000 5) = Ok (Some view')
    /\ head view' = 8.
Proof.
  intros view.
  destruct (handleNavigation_end_of_document view 1000 5) as (v & E & H).
  - vm_compute. discriminate.
  - vm_compute. discriminate.
  - exists v. split; [exact E | rewrite H; reflexivity].
Defined.

(** ** The guard of the hover handler *)

Lemma strictNeq_false_iff (a b : option jsstring) :
  strictNeq a b = false <-> a = b.
Proof.
  destruct a as [x|], b as [y|]; simpl; split; try discriminate;
    try reflexivity.
  - intros H. apply negb_false_iff, eqb_eq in H. congruence.
  - intros H. inversion H. rewrite eqb_refl. reflexivity.
Qed.

(** X6: the hover handler asks the server exactly when the file path of the
    component is not empty and is the current file path of the store.  In
    every other case it answers nothing, and does so before it looks at the
    position. *)
Theorem createLspHover_guard
        (EnhancedHoverData : Type) (filePath : option jsstring)
        (store : Lsp.State) (view : EditorView) (pos : Z) :
  (truthy filePath = false \/ filePath <> Lsp.currentFilePath store ->
   Hover.createLspHover (EnhancedHoverData := EnhancedHoverData)
                        filePath store view pos = Ok Hover.NoHover)
  /\ (0 <= pos <= CM.length (doc view) ->
      ((exists f lspPosition callback,
           Hover.createLspHover (EnhancedHoverData := EnhancedHoverData)
                                filePath store view pos
           = Ok (Hover.HoverRequested f lspPosition callback)
           /\ filePath = Some f)
       <-> truthy filePath = true
           /\ filePath = Lsp.currentFilePath store)).
Proof.
  unfold Hover.createLspHover. split.
  - intros [T | N].
    + rewrite T. reflexivity.
    + destruct (strictNeq filePath (Lsp.currentFilePath store)) eqn:S.
      * rewrite orb_true_r. reflexivity.
      * apply strictNeq_false_iff in S. contradiction.
  - intros Hpos. destruct (lineAt_in_range _ _ Hpos) as (l & El & _).
    destruct (truthy filePath) eqn:T; cbn [negb orb].
    + destruct (strictNeq filePath (Lsp.currentFilePath store)) eqn:S.
      * split; [intros (f & p & cb & E & _); discriminate|].
        intros [_ E]. apply strictNeq_false_iff in E. congruence.
      * apply strictNeq_false_iff in S.
        apply truthy_Some in T. destruct T as (f & Ef & Hf). subst filePath.
        rewrite El. cbn [bind].
        split; [intros _; split; [reflexivity | exact S]|].
        intros _. do 3 eexists. split; reflexivity.
    + split; [intros (f & p & cb & E & _); discriminate|].
      intros [E _]; discriminate.
Qed.

Lemma createLspHover_guard_witness :
  let store := Lsp.mkState (Some (js "k.ts")) [] in
  let view := mkEditorView (CM.ofString (js "let x")) 0 (fun _ => None) in
  Hover.createLspHover (EnhancedHoverData := unit)
                       (Some (js "h.ts")) store view 1000
  = Ok Hover.NoHover.
Proof.
  intros store view.
  apply (proj1 (createLspHover_guard unit (Some (js "h.ts")) store view 1000)).
  right. discriminate.
Defined.

(** ** The position sent to the server *)

(** X7: at an offset of the document, with the file of the component the
    current file, the completion provider and the hover handler send the
    same position to the server; it is the cursor position of a view whose
    caret is at the offset, and a navigation to it puts the caret at the
    offset. *)
Theorem request_positions_agree
        (EnhancedHoverData : Type) (store : Lsp.State) (view : EditorView)
        (pos : Z) (f : jsstring) :
  Lsp.currentFilePath store = Some f -> f <> [] ->
  0 <= pos <= CM.length (doc view) ->
  exists lspPosition completionCallback hoverCallback,
    lspCompletion store (Autocomplete.mkContext (doc view) pos)
    = Ok (Requested f lspPosition completionCallback)
    /\ Hover.createLspHover (EnhancedHoverData := EnhancedHoverData)
                            (Some f) store view pos
       = Ok (Hover.HoverRequested f lspPosition hoverCallback)
    /\ getCursorPosition (mkEditorView (doc view) pos (coordsAtPos view))
       = Ok lspPosition
    /\ handleNavigation (Some view) lspPosition
       = Ok (Some (mkEditorView (doc view) pos (coordsAtPos view))).
Proof.
  intros Ef Hf Hpos.
  destruct (lineAt_index _ _ Hpos) as (k & Hk & E & Hb).
  assert (T : truthy (Some f) = true)
    by (destruct f; [contradiction | reflexivity]).
  unfold lspCompletion, Hover.createLspHover, getCursorPosition.
  cbn [Autocomplete.pos Autocomplete.state_doc head doc].
  rewrite E, Ef, T, strictNeq_same. cbn [bind negb orb CM.number CM.from].
  do 3 eexists. split; [reflexivity|]. split; [reflexivity|].
  split; [reflexivity|].
  set (c := pos - lineStartOffset (doc view) k).
  replace (1 + Z.of_nat k - 1) with (Z.of_nat k) by lia.
  destruct (handleNavigation_result view (Z.of_nat k) c ltac:(lia) ltac:(lia))
    as (_ & _ & En).
  rewrite En. unfold lastLine, CM.lines.
  replace (Z.to_nat (Z.min (Z.of_nat k)
                           (Z.of_nat (List.length (CM.text_lines (doc view)))
                            - 1))) with k by lia.
  replace (Z.min c (JS.length (lineText (doc view) k))) with c by lia.
  replace (lineStartOffset (doc view) k + c) with pos by (subst c; lia).
  reflexivity.
Qed.

Lemma request_positions_agree_witness :
  let store := Lsp.mkState (Some (js "a.ts")) [] in
  let view := mkEditorView (CM.ofString (js "ab
cde")) 0 (fun _ => None) in
  getCursorPosition (mkEditorView (doc view) 4 (coordsAtPos view))
  = Ok (Lsp.mkPosition 1 1)
  /\ handleNavigation (Some view) (Lsp.mkPosition 1 1)
     = Ok (Some (mkEditorView (doc view) 4 (coordsAtPos view))).
Proof.
  intros store view.
  destruct (request_positions_agree unit store view 4 (js "a.ts"))
    as (p & c & h & _ & _ & G & N).
  - reflexivity.
  - discriminate.
  - vm_compute. split; discriminate.
  - assert (P : p = Lsp.mkPosition 1 1) by (vm_compute in G; congruence).
    subst p. split; [exact G | exact N].
Defined.

(** ** More on the replacement range *)

Lemma takeWhile_nth {A : Type} (f : A -> bool) (d : A) (l : list A) :
  forall n, (n < List.length (takeWhile f l))%nat -> f (nth n l d) = true.
Proof.
  induction l as [|x l IH]; simpl; intros n H; [lia|].
  destruct (f x) eqn:Fx; simpl in H; [|lia].
  destruct n as [|n]; [exact Fx | apply IH; lia].
Qed.

Lemma takeWhile_next {A : Type} (f : A -> bool) (d : A) (l : list A) :
  (List.length (takeWhile f l) < List.length l)%nat ->
  f (nth (List.length (takeWhile f l)) l d) = false.
Proof.
  induction l as [|x l IH]; simpl; intros H; [lia|].
  destruct (f x) eqn:Fx; simpl in *; [apply IH; lia | exact Fx].
Qed.

(** The characters of the run are in the class, and the character before
    the run, when there is one, is not. *)
Lemma identRun_chars (s : jsstring) (c : nat) (d : ascii) :
  (c <= List.length s)%nat ->
  let R := List.length (takeWhile identClass (rev (firstn c s))) in
  (forall i, (c - R <= i < c)%nat -> identClass (nth i s d) = true)
  /\ ((R < c)%nat -> identClass (nth (c - R - 1) s d) = false).
Proof.
  intros Hc R.
  assert (Hl : List.length (firstn c s) = c) by (rewrite length_firstn; lia).
  pose proof (takeWhile_length_le identClass (rev (firstn c s))) as HR.
  rewrite length_rev, Hl in HR. fold R in HR.
  assert (Hnth : forall j, (j < c)%nat ->
                   nth j (rev (firstn c s)) d = nth (c - S j) s d).
  { intros j Hj. rewrite rev_nth by lia. rewrite Hl, nth_firstn.
    replace (c - S j <? c)%nat with true
      by (symmetry; apply Nat.ltb_lt; lia).
    reflexivity. }
  split.
  - intros i Hi.
    pose proof (takeWhile_nth identClass d (rev (firstn c s)) (c - S i)
                  ltac:(fold R; lia)) as T.
    rewrite Hnth in T by lia.
    replace (c - S (c - S i))%nat with i in T by lia. exact T.
  - intros HRc.
    pose proof (takeWhile_next identClass d (rev (firstn c s))
                  ltac:(rewrite length_rev, Hl; fold R; lia)) as T.
    fold R in T. rewrite Hnth in T by lia.
    replace (c - S R)%nat with (c - R - 1)%nat in T by lia. exact T.
Qed.

(** X8: at an offset of the document, with a current file in the store, the
    answer of the completion provider starts at the start of the line plus
    the document offset at which the run of class characters before the
    cursor starts (or the cursor offset less 250, when the run starts
    earlier).  On a line that starts at offset 0 this is the start of the
    run; on every other line it lies behind it by the offset of the start
    of the line. *)
Theorem lspCompletion_from_any_line
        (store : Lsp.State) (d : CM.Text) (pos : Z) (f : jsstring) :
  Lsp.currentFilePath store = Some f -> f <> [] ->
  0 <= pos <= CM.length d ->
  exists k lspPosition callback,
    (k < List.length (CM.text_lines d))%nat
    /\ lineStartOffset d k <= pos
       <= lineStartOffset d k + JS.length (lineText d k)
    /\ lspCompletion store (Autocomplete.mkContext d pos)
       = Ok (Requested f lspPosition callback)
    /\ forall storeOnArrival completions,
        callback storeOnArrival completions
        = Ok (Autocomplete.mkResult
                (lineStartOffset d k
                 + Z.max (lineStartOffset d k
                          + identRunStart (lineText d k)
                                          (pos - lineStartOffset d k))
                         (pos - 250))
                (map toCompletion completions)).
Proof.
  intros Ef Hf Hpos.
  destruct (lineAt_index _ _ Hpos) as (k & Hk & E & Hb).
  assert (T : truthy (Some f) = true)
    by (destruct f; [contradiction | reflexivity]).
  exists k. unfold lspCompletion.
  cbn [Autocomplete.pos Autocomplete.state_doc].
  rewrite E, Ef, T, strictNeq_same. cbn [bind negb orb CM.from].
  do 2 eexists. split; [exact Hk|]. split; [exact Hb|].
  split; [reflexivity|].
  intros s cs. unfold Autocomplete.matchBefore.
  cbn [Autocomplete.pos Autocomplete.state_doc].
  rewrite E. cbn [bind CM.from CM.text].
  match goal with
  | |- context [searchIdent ?str] =>
      pose proof (searchIdent_bounds str) as B;
      replace (searchIdent str <? 0) with false
        by (symmetry; apply Z.ltb_ge; lia)
  end.
  cbn [Autocomplete.match_from].
  pose proof (matchBefore_from (lineText d k) (lineStartOffset d k)
                (pos - lineStartOffset d k) ltac:(lia)) as M.
  cbn zeta in M.
  replace (lineStartOffset d k + (pos - lineStartOffset d k)) with pos in M
    by lia.
  rewrite M. reflexivity.
Qed.

Lemma lspCompletion_from_any_line_witness :
  let store := Lsp.mkState (Some (js "a.ts")) [] in
  let d := CM.ofString (js "a
foo") in
  exists lspPosition callback,
    lspCompletion store (Autocomplete.mkContext d 5)
    = Ok (Requested (js "a.ts") lspPosition callback)
    /\ callback store [] = Ok (Autocomplete.mkResult 4 []).
Proof.
  intros store d.
  destruct (lspCompletion_from_any_line store d 5 (js "a.ts"))
    as (k & p & cb & Hk & Hb & E & H).
  - reflexivity.
  - discriminate.
  - vm_compute. split; discriminate.
  - exists p, cb. split; [exact E|].
    vm_compute in E. inversion E; subst. reflexivity.
Defined.

(** X9: for a completion triggered at offset [p] of the first line, the
    answer starts between 0 and [p] and no more than 250 before [p];
    every character it replaces is a word character, a hyphen or a dot;
    and when it starts after 0 and less than 250 before [p], the character
    before it is none of these. *)
Theorem lspCompletion_replaces_identifier
        (store : Lsp.State) (d : CM.Text) (p : Z) (f : jsstring) :
  Lsp.currentFilePath store = Some f -> f <> [] ->
  0 <= p <= JS.length (CM.first_line d) ->
  exists lspPosition callback from,
    lspCompletion store (Autocomplete.mkContext d p)
    = Ok (Requested f lspPosition callback)
    /\ (forall storeOnArrival completions,
           callback storeOnArrival completions
           = Ok (Autocomplete.mkResult from (map toCompletion completions)))
    /\ 0 <= from <= p /\ p - from <= 250
    /\ (forall i, from <= i < p ->
          identClass (nth (Z.to_nat i) (CM.first_line d) " "%char) = true)
    /\ (0 < from -> p - from < 250 ->
        identClass (nth (Z.to_nat (from - 1)) (CM.first_line d) " "%char)
        = false).
Proof.
  intros Ef Hf Hp.
  pose proof (lineAt_first_line d p Hp) as E.
  assert (T : truthy (Some f) = true)
    by (destruct f; [contradiction | reflexivity]).
  unfold lspCompletion. cbn [Autocomplete.pos Autocomplete.state_doc].
  rewrite E, Ef, T, strictNeq_same. cbn [bind negb orb CM.from].
  exists (Lsp.mkPosition (1 - 1) (p - 0)).
  eexists. exists (Z.max (identRunStart (CM.first_line d) p) (p - 250)).
  split; [reflexivity|].
  pose proof (identRunStart_bounds (CM.first_line d) p Hp) as B.
  pose proof (identRun_chars (CM.first_line d) (Z.to_nat p) " "%char
                ltac:(unfold JS.length in Hp; lia)) as [Hin Hout].
  assert (RS : identRunStart (CM.first_line d) p
               = p - Z.of_nat (List.length
                     (takeWhile identClass
                        (rev (firstn (Z.to_nat p) (CM.first_line d))))))
    by reflexivity.
  split.
  { intros s cs. unfold Autocomplete.matchBefore.
    cbn [Autocomplete.pos Autocomplete.state_doc].
    rewrite E. cbn [bind CM.from CM.text].
    match goal with
    | |- context [searchIdent ?str] =>
        pose proof (searchIdent_bounds str) as Bs;
        replace (searchIdent str <? 0) with false
          by (symmetry; apply Z.ltb_ge; lia)
    end.
    cbn [Autocomplete.match_from].
    pose proof (matchBefore_from (CM.first_line d) 0 p Hp) as M.
    cbn zeta in M. rewrite !Z.add_0_l in M. rewrite !Z.add_0_l.
    rewrite M. reflexivity. }
  split; [lia|]. split; [lia|]. split.
  - intros i Hi. apply Hin. lia.
  - intros H0 H250.
    replace (Z.max (identRunStart (CM.first_line d) p) (p - 250))
      with (identRunStart (CM.first_line d) p) in * by lia.
    specialize (Hout ltac:(lia)).
    match type of Hout with
    | identClass (nth ?a _ _) = _ =>
        replace a with (Z.to_nat (identRunStart (CM.first_line d) p - 1))
          in Hout by lia
    end.
    exact Hout.
Qed.

Lemma lspCompletion_replaces_identifier_witness :
  let store := Lsp.mkState (Some (js "a.ts")) [] in
  let d := CM.ofString (js "let x = foo.") in
  0 <= 12 <= JS.length (CM.first_line d)
  /\ exists lspPosition callback from,
      lspCompletion store (Autocomplete.mkContext d 12)
      = Ok (Requested (js "a.ts") lspPosition callback)
      /\ 0 <= from <= 12.
Proof.
  intros store d.
  assert (H : 0 <= 12 <= JS.length (CM.first_line d)).
  { vm_compute. split; discriminate. }
  split; [exact H|].
  destruct (lspCompletion_replaces_identifier store d 12 (js "a.ts")
              eq_refl ltac:(discriminate) H)
    as (p & cb & from & E & _ & B & _).
  exists p, cb, from. split; [exact E | exact B].
Defined.



(** ** More on document changes *)

Lemma sentUpdates_app (a b : list Effect) :
  sentUpdates (a ++ b) = sentUpdates a ++ sentUpdates b.
Proof.
  induction a as [|e a IH]; simpl; [reflexivity|].
  destruct e; simpl; rewrite IH; reflexivity.
Qed.

Lemma notifiedContents_app (a b : list Effect) :
  notifiedContents (a ++ b) = notifiedContents a ++ notifiedContents b.
Proof.
  induction a as [|e a IH]; simpl; [reflexivity|].
  destruct e; simpl; rewrite IH; reflexivity.
Qed.

Lemma handleChanges_effects (f : jsstring) (c : bool)
      (contents : list jsstring) :
  forall v,
    fst (handleChanges f c contents v) = v + Z.of_nat (List.length contents)
    /\ sentUpdates (snd (handleChanges f c contents v))
       = map (fun cv => (f, fst cv, snd cv))
             (combine contents (countFrom (v + 1) (List.length contents)))
    /\ notifiedContents (snd (handleChanges f c contents v)) = contents.
Proof.
  induction contents as [|content rest IH]; intros v.
  - simpl. repeat split. lia.
  - cbn [handleChanges]. unfold handleChange.
    destruct (handleChanges f c rest (v + 1)) as [v2 e2] eqn:E.
    specialize (IH (v + 1)). rewrite E in IH. cbn [fst snd] in *.
    destruct IH as (IH1 & IH2 & IH3).
    cbn [List.length countFrom combine map fst snd].
    rewrite !sentUpdates_app, !notifiedContents_app, IH2, IH3.
    split; [lia|]. destruct c; split; reflexivity.
Qed.

(** X11: document changes handled one after the other, from any revision
    [v], call [updateDocument] once for each change, always for the file of
    the component, with the content of the change and the revisions
    [v + 1], [v + 2], .. in the order of the changes; [onChange] gets the
    same contents in the same order, and the revision ends at [v] plus the
    number of changes. *)
Theorem handleChanges_updates_in_order
        (filePath : jsstring) (editorContainer : bool)
        (contents : list jsstring) (documentVersion : Z) :
  let after := handleChanges filePath editorContainer contents
                             documentVersion in
  fst after = documentVersion + Z.of_nat (List.length contents)
  /\ sentUpdates (snd after)
     = map (fun cv => (filePath, fst cv, snd cv))
           (combine contents
                    (countFrom (documentVersion + 1) (List.length contents)))
  /\ map (fun u => snd (fst u)) (sentUpdates (snd after)) = contents
  /\ notifiedContents (snd after) = contents.
Proof.
  intros after. subst after.
  destruct (handleChanges_effects filePath editorContainer contents
              documentVersion) as (H1 & H2 & H3).
  split; [exact H1|]. split; [exact H2|]. split; [|exact H3].
  rewrite H2, map_map. cbn [fst snd]. clear H1 H2 H3.
  generalize (documentVersion + 1).
  induction contents as [|x xs IH]; intros a; [reflexivity|].
  cbn [List.length countFrom combine map fst]. rewrite IH. reflexivity.
Qed.

(** Changes that follow one another continue the revisions: handling two
    batches of changes is handling their concatenation. *)
Lemma handleChanges_app
        (filePath : jsstring) (editorContainer : bool)
        (first second : list jsstring) (documentVersion : Z) :
  handleChanges filePath editorContainer (first ++ second) documentVersion
  = let '(v1, e1) := handleChanges filePath editorContainer first
                                   documentVersion in
    let '(v2, e2) := handleChanges filePath editorContainer second v1 in
    (v2, e1 ++ e2).
Proof.
  revert documentVersion.
  induction first as [|content rest IH]; intros v.
  - cbn [app handleChanges].
    destruct (handleChanges filePath editorContainer second v); reflexivity.
  - cbn [app handleChanges]. unfold handleChange.
    rewrite IH.
    destruct (handleChanges filePath editorContainer rest (v + 1))
      as [v1 e1].
    destruct (handleChanges filePath editorContainer second v1) as [v2 e2].
    rewrite <- !app_assoc. reflexivity.
Qed.

(** ** More on diagnostics *)

(** X12: the projector keeps the number, the order and the messages of the
    diagnostics; a projected severity is [error] exactly for the severity
    string [error], [warning] exactly for [warning], and never [hint]. *)
Theorem mapLspDiagnosticsToCM_severities (ds : list Lsp.DiagnosticItem) :
  List.length (mapLspDiagnosticsToCM ds) = List.length ds
  /\ map Lint.message (mapLspDiagnosticsToCM ds) = map Lsp.message ds
  /\ Forall2 (fun diag cm =>
                (Lint.severity cm = Lint.error
                 <-> Lsp.severity diag = js "error")
                /\ (Lint.severity cm = Lint.warning
                    <-> Lsp.severity diag = js "warning")
                /\ Lint.severity cm <> Lint.hint)
             ds (mapLspDiagnosticsToCM ds).
Proof.
  split; [apply length_map|]. split.
  - unfold mapLspDiagnosticsToCM. rewrite map_map. reflexivity.
  - induction ds as [|diag ds IH]; constructor; [|exact IH].
    cbn [Lint.severity]. unfold mapSeverity.
    destruct (JS.eqb (Lsp.severity diag) (js "error")) eqn:E1.
    + apply eqb_eq in E1. rewrite E1.
      repeat split; try discriminate; auto.
    + apply eqb_neq in E1.
      destruct (JS.eqb (Lsp.severity diag) (js "warning")) eqn:E2.
      * apply eqb_eq in E2.
        repeat split; try discriminate; try contradiction; auto.
      * apply eqb_neq in E2.
        repeat split; try discriminate; try contradiction.
Qed.

(** X13: for diagnostics that lie on the first line of the document, the
    projected range is the range of the offsets of their positions. *)
Theorem mapLspDiagnosticsToCM_first_line
        (d : CM.Text) (ds : list Lsp.DiagnosticItem) :
  Forall (onFirstLine d) ds ->
  map (fun cm => (Lint.from cm, Lint.to cm)) (mapLspDiagnosticsToCM ds)
  = map (fun diag => (toEditorOffset d (Lsp.start (Lsp.range diag)),
                      toEditorOffset d (Lsp.end_ (Lsp.range diag)))) ds.
Proof.
  unfold mapLspDiagnosticsToCM. rewrite map_map. cbn [Lint.from Lint.to].
  induction 1 as [|diag ds (L1 & L2 & C1 & C2) _ IH]; [reflexivity|].
  cbn [map]. rewrite IH. f_equal.
  destruct (Lsp.range diag) as [[l1 c1] [l2 c2]].
  cbn [Lsp.start Lsp.end_ Lsp.line Lsp.character] in *. subst l1 l2.
  rewrite !toEditorOffset_first_line by assumption. reflexivity.
Qed.

Lemma mapLspDiagnosticsToCM_first_line_witness :
  let d := CM.ofString (js "let x = 1") in
  let diag := Lsp.mkDiagnosticItem
                (Lsp.mkRange (Lsp.mkPosition 0 4) (Lsp.mkPosition 0 5))
                (js "warning") (js "unused") in
  map (fun cm => (Lint.from cm, Lint.to cm)) (mapLspDiagnosticsToCM [diag])
  = [(toEditorOffset d (Lsp.mkPosition 0 4),
      toEditorOffset d (Lsp.mkPosition 0 5))].
Proof.
  intros d diag.
  apply (mapLspDiagnosticsToCM_first_line d [diag]).
  constructor; [|constructor].
  vm_compute. repeat split; discriminate.
Defined.

(** ** More on the grammar selection *)

Ltac language_cases lang :=
  unfold getLanguageExtension;
  repeat match goal with
         | |- context [JS.eqb lang ?s] =>
             let E := fresh "E" in
             destruct (JS.eqb lang s) eqn:E;
             [apply eqb_eq in E | apply eqb_neq in E]
         end.

Ltac handled_language :=
  match goal with
  | H : ~ In ?lang handledLanguages, E : ?lang = _ |- _ =>
      exfalso; apply H; rewrite E; unfold handledLanguages; simpl; tauto
  end.

(** X14: the grammar is JavaScript with TypeScript and without JSX exactly
    for the language [typescript] and for the languages that have no case
    of their own; JSX is enabled exactly for [jsx] and [tsx].  The
    comparison is on the exact string. *)
Theorem getLanguageExtension_javascript_cases (lang : jsstring) :
  (getLanguageExtension lang = Lang.javascript false true
   <-> lang = js "typescript" \/ ~ In lang handledLanguages)
  /\ ((exists typescript,
          getLanguageExtension lang = Lang.javascript true typescript)
      <-> lang = js "jsx" \/ lang = js "tsx").
Proof.
  split.
  - language_cases lang;
      (split;
       [ intros H; try discriminate H; try (left; assumption);
         right; intros HI; unfold handledLanguages in HI; simpl in HI;
         unfold js in *; simpl in *; intuition congruence
       | intros [H | H]; try reflexivity; try handled_language;
         exfalso; unfold js in *; simpl in *; congruence ]).
  - language_cases lang;
      (split;
       [ intros [ts H]; try discriminate H;
         (left; assumption) || (right; assumption)
       | intros [H | H]; try (eexists; reflexivity);
         exfalso; unfold js in *; simpl in *; congruence ]).
Qed.

Lemma getLanguageExtension_javascript_cases_witness :
  getLanguageExtension (js "TypeScript") = Lang.javascript false true.
Proof.
  apply (proj1 (getLanguageExtension_javascript_cases (js "TypeScript"))).
  right. unfold handledLanguages; simpl; intuition discriminate.
Defined.

(** ** The server lifecycle *)

(** X15: one run of the lifecycle effect makes no store call unless the
    component has a file path and a language and the web socket runs.  It
    calls [startLspServer] at most once, first, exactly when the server is
    not running, with the project root of the file; it calls
    [openDocument] at most once, last, for the file, language and text of
    the component, and never after a [startLspServer] that was rejected.
    The cleanup of a run that called [startLspServer] closes nothing; a
    cleanup that closes, closes the file of the component. *)
Theorem lspEffect_calls
        (filePath : option jsstring) (language : jsstring)
        (initialValue : option jsstring)
        (isWebSocketRunning isServerRunning : bool)
        (invoke : Settled jsstring) (started : Settled unit) :
  let calls := lspEffect filePath language initialValue isWebSocketRunning
                         isServerRunning invoke started in
  let cleanup := lspEffectCleanup filePath isServerRunning in
  (truthy filePath = false \/ language = [] \/ isWebSocketRunning = false ->
   calls = [])
  /\ (exists starts opens,
         calls = starts ++ opens
         /\ (starts = []
             \/ exists f, filePath = Some f /\ isServerRunning = false
                          /\ starts = [StartLspServer language
                                         (getProjectRoot invoke f language)])
         /\ (opens = []
             \/ exists f text,
                 filePath = Some f /\ initialValue = Some text
                 /\ opens = [OpenDocument f language text]
                 /\ (isServerRunning = true \/ started = Resolved tt)))
  /\ (isServerRunning = false -> truthy filePath = true -> language <> [] ->
      isWebSocketRunning = true -> existsb isStart calls = true)
  /\ (existsb isStart calls = true -> cleanup = [])
  /\ (forall c, In c cleanup ->
        exists f, filePath = Some f /\ f <> [] /\ c = CloseDocument f).
Proof.
  intros calls cleanup. subst calls cleanup.
  unfold lspEffect, lspEffectCleanup.
  split; [|split; [|split; [|split]]].
  - intros [H | [H | H]].
    + rewrite H. reflexivity.
    + subst language. cbn [truthy]. rewrite andb_false_r. reflexivity.
    + rewrite H, andb_false_r. reflexivity.
  - destruct (truthy filePath && truthy (Some language) && isWebSocketRunning);
      [|exists [], []; split; [reflexivity | split; left; reflexivity]].
    destruct filePath as [f|];
      [|exists [], []; split; [reflexivity | split; left; reflexivity]].
    destruct isServerRunning; cbn [negb].
    + exists []. eexists. split; [reflexivity|].
      split; [left; reflexivity|].
      destruct initialValue as [text|]; [right | left; reflexivity].
      exists f, text. auto.
    + eexists [_]. eexists. split; [reflexivity|].
      split; [right; exists f; auto|].
      destruct started as [[]|]; [|left; reflexivity].
      destruct initialValue as [text|]; [right | left; reflexivity].
      exists f, text. auto.
  - intros -> T L ->. rewrite T.
    destruct language; [contradiction|]. cbn [truthy andb negb].
    destruct filePath; [reflexivity | discriminate].
  - destruct isServerRunning; [|rewrite andb_false_r; reflexivity].
    cbn [negb].
    destruct (truthy filePath && truthy (Some language) && isWebSocketRunning);
      [|discriminate].
    destruct filePath; [|discriminate].
    destruct initialValue; discriminate.
  - intros c.
    destruct (truthy filePath) eqn:T; cbn [andb]; [|contradiction].
    destruct isServerRunning; [|contradiction].
    apply truthy_Some in T. destruct T as (f & -> & Hf).
    intros [<- | []]. exists f. auto.
Qed.

Lemma lspEffect_calls_witness :
  lspEffect (Some (js "/app/src/main.ts")) (js "typescript")
            (Some (js "let x")) true false Rejected (Resolved tt)
  = [StartLspServer (js "typescript") (js "/app/src");
     OpenDocument (js "/app/src/main.ts") (js "typescript") (js "let x")]
  /\ lspEffectCleanup (Some (js "/app/src/main.ts")) false = [].
Proof.
  split; [reflexivity|].
  apply (proj1 (proj2 (proj2 (proj2
           (lspEffect_calls (Some (js "/app/src/main.ts")) (js "typescript")
              (Some (js "let x")) true false Rejected (Resolved tt)))))).
  reflexivity.
Defined.

(** ** Navigation to a negative line *)

(** X16: a navigation event with a negative line makes the handler throw a
    [RangeError], whatever the document and the character are: the line
    asked of the document is then below 1. *)
Theorem handleNavigation_negative_line_throws
        (view : EditorView) (L C : Z) :
  L < 0 ->
  handleNavigation (Some view) (Lsp.mkPosition L C) = Throw RangeError.
Proof.
  intros HL. unfold handleNavigation, navigationTransaction.
  cbn [Lsp.line Lsp.character]. cbn zeta.
  rewrite line_out_of_range by (left; lia). reflexivity.
Qed.

Lemma handleNavigation_negative_line_throws_witness :
  handleNavigation
    (Some (mkEditorView (CM.ofString (js "ab
cde")) 0 (fun _ => None)))
    (Lsp.mkPosition (-3) 7)
  = Throw RangeError.
Proof.
  apply handleNavigation_negative_line_throws. lia.
Defined.
